(** * Fine-tuning for Rerank: the data pipeline of the notebook

    A shallow embedding of [notebooks/llmu/Fine_Tuning_for_Rerank.ipynb]:
    the record shaping loop, the train/validation/test split, the JSON-lines
    serializer with its skip-if-exists guard, and the accuracy evaluation
    that calls the external rerank endpoint.

    Python values are modelled as the notebook handles them: a [str] is a
    sequence of Unicode code points, a dataset record is a [dict] from
    field names to values, exceptions are an explicit error result. *)

From Stdlib Require Import ZArith QArith Lia Ascii String.
From stdpp Require Import base tactics option list gmap strings pretty.

Local Open Scope Z_scope.

(** ** Python values *)

(** The code points of a Rocq string literal; the conversion is used for
    the ASCII literals of the notebook (["holding_"], ["query"], ...). *)
Definition txt (s : string) : list N :=
  N_of_ascii <$> list_ascii_of_string s.

(** The values found in a dataset record: [None], an [int] or a [str]. *)
Inductive pyval :=
  | PyNone
  | PyInt (z : Z)
  | PyStr (s : list N).

Global Instance pyval_eq_dec : EqDecision pyval.
Proof. solve_decision. Defined.

(** The exceptions the notebook code can raise. *)
Inductive pyerr :=
  | KeyError (k : list N)
  | ValueError
  | TypeError
  | IndexError
  | ZeroDivisionError
  | IsADirectoryError.

Inductive result (A : Type) :=
  | Ok (a : A)
  | Raise (e : pyerr).
Arguments Ok {A} a.
Arguments Raise {A} e.

Global Instance result_ret : MRet result := λ A a, Ok a.
Global Instance result_bind : MBind result := λ A B f m,
  match m with
  | Ok a => f a
  | Raise e => Raise e
  end.

(** [str(v)], which is what ["{}".format(v)] inserts. *)
Definition py_str (v : pyval) : list N :=
  match v with
  | PyNone => txt "None"
  | PyInt z => txt (pretty z)
  | PyStr s => s
  end.

(** *** [int(v)]

    On a [str], [int] skips surrounding white space, reads an optional
    sign and then decimal digits, where single underscores may separate
    digits.  White space is what CPython's [int] skips: the ASCII
    characters tab to carriage return and the space, and the Unicode
    spaces beyond ASCII.  Decimal digits are the ASCII ones; the digits
    of other scripts are outside the modelled domain and are rejected. *)
Definition is_space (c : N) : bool :=
  match c with
  | 9 | 10 | 11 | 12 | 13 | 32
  | 133 | 160 | 5760 | 8232 | 8233 | 8239 | 8287 | 12288 => true
  | _ => ((8192 <=? c) && (c <=? 8202))%N
  end%N.

Definition digit_val (c : N) : option Z :=
  if ((48 <=? c) && (c <=? 57))%N then Some (Z.of_N (c - 48)) else None.

Fixpoint skip_spaces (s : list N) : list N :=
  match s with
  | c :: s' => if is_space c then skip_spaces s' else s
  | [] => []
  end.

(** The digits after the first one; stops at the first character that is
    neither a digit nor an underscore followed by a digit. *)
Fixpoint scan_digits (acc : Z) (s : list N) : Z * list N :=
  match s with
  | c :: s' =>
      match digit_val c with
      | Some d => scan_digits (10 * acc + d) s'
      | None =>
          if (c =? 95)%N then
            match s' with
            | c' :: s'' =>
                match digit_val c' with
                | Some d => scan_digits (10 * acc + d) s''
                | None => (acc, s)
                end
            | [] => (acc, s)
            end
          else (acc, s)
      end
  | [] => (acc, [])
  end.

Definition scan_sign (s : list N) : bool * list N :=
  match s with
  | 45%N :: s' => (true, s')
  | 43%N :: s' => (false, s')
  | _ => (false, s)
  end.

Definition int_of_str (s : list N) : option Z :=
  let '(neg, s) := scan_sign (skip_spaces s) in
  match s with
  | c :: s' =>
      match digit_val c with
      | Some d =>
          let '(v, rest) := scan_digits d s' in
          match skip_spaces rest with
          | [] => Some (if neg then - v else v)
          | _ :: _ => None
          end
      | None => None
      end
  | [] => None
  end.

Definition py_int (v : pyval) : result Z :=
  match v with
  | PyNone => Raise TypeError
  | PyInt z => Ok z
  | PyStr s =>
      match int_of_str s with
      | Some z => Ok z
      | None => Raise ValueError
      end
  end.

(** ** Dataset records

    A record of the streamed dataset is a [dict]; [example[k]] raises
    [KeyError] on a missing key, [example.get(k)] gives [None]. *)
Abbreviation dict := (gmap (list N) pyval).

Definition getitem (example : dict) (k : list N) : result pyval :=
  match example !! k with
  | Some v => Ok v
  | None => Raise (KeyError k)
  end.

Definition get (example : dict) (k : list N) : pyval :=
  default PyNone (example !! k).

(** ** Record shaper *)

Record NormalizedExample := {
  query : pyval;
  docs : list pyval;
  label : Z;
  relevant_passages : list pyval;
  hard_negatives : list pyval
}.

Definition num_examples : nat := 420.

Definition all_labels : list (list N) :=
  (λ s, txt "holding_" ++ s) <$> [txt "0"; txt "1"; txt "2"; txt "3"; txt "4"].

(** The body of the loop over the dataset: the dictionary appended to [d].
    The entries of the dictionary display are evaluated in order, so a
    missing ["citing_prompt"] or a label that [int] rejects is reported
    before the lookup of the selected passage. *)
Definition shape (example : dict) : result NormalizedExample :=
  lbl ← getitem example (txt "label");
  let selected_passage_idx := txt "holding_" ++ py_str lbl in
  let hard_negatives_idx :=
    filter (λ x, x ≠ selected_passage_idx) all_labels in
  q ← getitem example (txt "citing_prompt");
  let ds := get example <$> all_labels in
  lbl' ← getitem example (txt "label");
  l ← py_int lbl';
  rp ← getitem example selected_passage_idx;
  let hn := get example <$> hard_negatives_idx in
  Ok {| query := q; docs := ds; label := l;
        relevant_passages := [rp]; hard_negatives := hn |}.

(** [for example in iterable_dataset.take(num_examples): d.append(...)];
    an exception leaves the loop and no list is produced. *)
Fixpoint shape_loop (examples : list dict) (d : list NormalizedExample)
  : result (list NormalizedExample) :=
  match examples with
  | [] => Ok d
  | example :: rest =>
      ne ← shape example;
      shape_loop rest (d ++ [ne])
  end.

Definition load (iterable_dataset : list dict) : result (list NormalizedExample) :=
  shape_loop (take num_examples iterable_dataset) [].

(** ** Data frames and the splitter

    [pd.DataFrame(d)] gives every row its position as index label
    (a range index); a slice of the frame keeps the labels of its rows. *)
Definition Series (A : Type) : Type := list (nat * A).
Definition DataFrame : Type := Series NormalizedExample.

Definition pd_DataFrame (d : list NormalizedExample) : DataFrame :=
  zip (seq 0 (length d)) d.

Definition row_labels {A} (s : Series A) : list nat := fst <$> s.
Definition values {A} (s : Series A) : list A := snd <$> s.

(** A bound of a Python slice, clipped to the sequence: a negative bound
    counts from the end. *)
Definition slice_bound (len i : Z) : Z :=
  if i <? 0 then Z.max (i + len) 0 else Z.min i len.

(** [l[lo:hi]], where an omitted bound is [None]. *)
Definition py_slice {A} (l : list A) (lo hi : option Z) : list A :=
  let len := Z.of_nat (length l) in
  let a := from_option (slice_bound len) 0 lo in
  let b := from_option (slice_bound len) len hi in
  take (Z.to_nat (b - a)) (drop (Z.to_nat a) l).

Definition train_num : Z := 256.
Definition valid_num : Z := 154.
Definition test_num : Z := 10.

Record Split := {
  df_train : DataFrame;
  df_valid : DataFrame;
  df_test : DataFrame
}.

(** The three slices of the notebook.  The test slice is open-ended:
    [df[train_num+valid_num:]] does not mention [test_num]. *)
Definition train_valid_test_split (df : DataFrame)
    (train_num valid_num test_num : Z) : Split :=
  {| df_train := py_slice df None (Some train_num);
     df_valid := py_slice df (Some train_num) (Some (train_num + valid_num));
     df_test := py_slice df (Some (train_num + valid_num)) None |}.

(** ** JSON

    The objects handed to [json.dumps] and returned by [json.loads].  A
    Python [dict] keeps its keys in insertion order, so it is a list of
    bindings with distinct keys. *)
#[local] Unset Elimination Schemes.
Inductive json :=
  | JNull
  | JBool (b : bool)
  | JInt (z : Z)
  | JStr (s : list N)
  | JList (l : list json)
  | JDict (kv : list (list N * json)).
#[local] Set Elimination Schemes.

Definition to_json (v : pyval) : json :=
  match v with
  | PyNone => JNull
  | PyInt z => JInt z
  | PyStr s => JStr s
  end.

(** *** [json.dumps] with its defaults ([ensure_ascii=True], separators
    [", "] and [": "]) *)

Definition hex_digit (n : N) : N :=
  (if n <? 10 then 48 + n else 87 + n)%N.

(** ["\\u{0:04x}".format(n)] *)
Definition escape_u (n : N) : list N :=
  [92; 117; hex_digit (n / 4096 mod 16); hex_digit (n / 256 mod 16);
   hex_digit (n / 16 mod 16); hex_digit (n mod 16)]%N.

(** The replacement of one character: the short escapes, the printable
    ASCII characters as they are, [\uXXXX] for the rest, as a surrogate
    pair beyond the basic plane. *)
Definition escape_char (c : N) : list N :=
  (if c =? 34 then [92; 34]
   else if c =? 92 then [92; 92]
   else if c =? 10 then [92; 110]
   else if c =? 13 then [92; 114]
   else if c =? 9 then [92; 116]
   else if c =? 8 then [92; 98]
   else if c =? 12 then [92; 102]
   else if (32 <=? c) && (c <=? 126) then [c]
   else if c <? 65536 then escape_u c
   else
     let n := c - 65536 in
     let s1 := N.lor 55296 (N.land (N.shiftr n 10) 1023) in
     let s2 := N.lor 56320 (N.land n 1023) in
     escape_u s1 ++ escape_u s2)%N.

Definition encode_basestring_ascii (s : list N) : list N :=
  [34%N] ++ concat (escape_char <$> s) ++ [34%N].

Fixpoint join (sep : list N) (parts : list (list N)) : list N :=
  match parts with
  | [] => []
  | [p] => p
  | p :: rest => p ++ sep ++ join sep rest
  end.

Fixpoint json_dumps (v : json) : list N :=
  match v with
  | JNull => txt "null"
  | JBool true => txt "true"
  | JBool false => txt "false"
  | JInt z => txt (pretty z)
  | JStr s => encode_basestring_ascii s
  | JList l => txt "[" ++ join (txt ", ") (json_dumps <$> l) ++ txt "]"
  | JDict kv =>
      txt "{" ++
      join (txt ", ")
        ((λ b, encode_basestring_ascii (fst b) ++ txt ": " ++ json_dumps (snd b)) <$> kv)
      ++ txt "}"
  end.

(** *** [json.loads]

    The decoder follows the scanner of the [json] module: [scanstring]
    for string bodies, [JSONArray] and [JSONObject] for the containers,
    [scan_once] for a value.  Floating-point literals, which no record of
    this pipeline holds, are outside the modelled domain and rejected. *)

Definition hex_val (c : N) : option N :=
  (if (48 <=? c) && (c <=? 57) then Some (c - 48)
   else if (97 <=? c) && (c <=? 102) then Some (c - 87)
   else if (65 <=? c) && (c <=? 70) then Some (c - 55)
   else None)%N.

Definition decode_uXXXX (a b c d : N) : option N :=
  a ← hex_val a; b ← hex_val b; c ← hex_val c; d ← hex_val d;
  Some (a * 4096 + b * 256 + c * 16 + d)%N.

Definition is_high_surrogate (c : N) : bool := ((55296 <=? c) && (c <=? 56319))%N.
Definition is_low_surrogate (c : N) : bool := ((56320 <=? c) && (c <=? 57343))%N.

(** The character a short escape stands for. *)
Definition backslash (c : N) : option N :=
  (if c =? 34 then Some 34
   else if c =? 92 then Some 92
   else if c =? 47 then Some 47
   else if c =? 98 then Some 8
   else if c =? 102 then Some 12
   else if c =? 110 then Some 10
   else if c =? 114 then Some 13
   else if c =? 116 then Some 9
   else None)%N.

Definition cons_char (c : N) (r : option (list N * list N)) : option (list N * list N) :=
  '(str, rest) ← r; Some (c :: str, rest).

(** The body of a string after its opening quote, up to and including
    the closing quote; gives the decoded string and the rest of the text.
    A raw control character is an error (strict mode). *)
Fixpoint scanstring (s : list N) : option (list N * list N) :=
  match s with
  | [] => None
  | c :: s1 =>
      if (c =? 34)%N then Some ([], s1)
      else if (c =? 92)%N then
        match s1 with
        | [] => None
        | e :: s2 =>
            if (e =? 117)%N then
              match s2 with
              | a :: b :: c :: d :: s3 =>
                  match decode_uXXXX a b c d with
                  | None => None
                  | Some uni =>
                      if is_high_surrogate uni then
                        match s3 with
                        | e1 :: e2 :: a' :: b' :: c' :: d' :: s4 =>
                            if ((e1 =? 92) && (e2 =? 117))%N then
                              match decode_uXXXX a' b' c' d' with
                              | None => None
                              | Some uni2 =>
                                  if is_low_surrogate uni2 then
                                    cons_char
                                      (65536 + N.lor (N.shiftl (uni - 55296) 10) (uni2 - 56320))%N
                                      (scanstring s4)
                                  else cons_char uni (scanstring s3)
                              end
                            else cons_char uni (scanstring s3)
                        | _ => cons_char uni (scanstring s3)
                        end
                      else cons_char uni (scanstring s3)
                  end
              | _ => None
              end
            else
              match backslash e with
              | Some c' => cons_char c' (scanstring s2)
              | None => None
              end
        end
      else if (c <? 32)%N then None
      else cons_char c (scanstring s1)
  end.

Definition is_json_ws (c : N) : bool :=
  ((c =? 32) || (c =? 9) || (c =? 10) || (c =? 13))%N.

Fixpoint skip_ws (s : list N) : list N :=
  match s with
  | c :: s' => if is_json_ws c then skip_ws s' else s
  | [] => []
  end.

(** [dict(pairs)]: a later binding of a key replaces the value of the
    earlier one, which keeps its place. *)
Fixpoint dict_set (d : list (list N * json)) (k : list N) (v : json)
  : list (list N * json) :=
  match d with
  | [] => [(k, v)]
  | (k', v') :: d' =>
      if decide (k = k') then (k, v) :: d' else (k', v') :: dict_set d' k v
  end.

Definition dict_of_pairs (pairs : list (list N * json)) : list (list N * json) :=
  foldl (λ d b, dict_set d (fst b) (snd b)) [] pairs.

(** The digits of an integer literal after its first digit. *)
Fixpoint scan_int_digits (acc : Z) (s : list N) : Z * list N :=
  match s with
  | c :: s' =>
      match digit_val c with
      | Some d => scan_int_digits (10 * acc + d) s'
      | None => (acc, s)
      end
  | [] => (acc, [])
  end.

(** An integer literal: an optional minus sign, then a single zero or a
    non-zero digit followed by digits; a fraction or an exponent after it
    would make a float. *)
Definition scan_number (s : list N) : option (json * list N) :=
  let '(neg, s) :=
    match s with
    | c :: s' => if (c =? 45)%N then (true, s') else (false, s)
    | [] => (false, s)
    end in
  match s with
  | c :: s' =>
      match digit_val c with
      | Some d =>
          let '(v, rest) := if (c =? 48)%N then (0, s') else scan_int_digits d s' in
          match rest with
          | c' :: _ =>
              if ((c' =? 46) || (c' =? 101) || (c' =? 69))%N then None
              else Some (JInt (if neg then - v else v), rest)
          | [] => Some (JInt (if neg then - v else v), rest)
          end
      | None => None
      end
  | [] => None
  end.

Fixpoint strip_prefix (p s : list N) : option (list N) :=
  match p, s with
  | [], _ => Some s
  | a :: p', b :: s' => if (a =? b)%N then strip_prefix p' s' else None
  | _ :: _, [] => None
  end.

Fixpoint scan_once (fuel : nat) (s : list N) : option (json * list N) :=
  match fuel with
  | O => None
  | S fuel =>
      match s with
      | [] => None
      | c :: s' =>
          if (c =? 34)%N then
            ('(str, rest) ← scanstring s'; Some (JStr str, rest))
          else if (c =? 123)%N then
            match skip_ws s' with
            | c1 :: s1 =>
                if (c1 =? 125)%N then Some (JDict [], s1)
                else JSONObject fuel (c1 :: s1) []
            | [] => None
            end
          else if (c =? 91)%N then
            match skip_ws s' with
            | c1 :: s1 =>
                if (c1 =? 93)%N then Some (JList [], s1)
                else JSONArray fuel (c1 :: s1) []
            | [] => None
            end
          else if (c =? 110)%N then
            (rest ← strip_prefix (txt "ull") s'; Some (JNull, rest))
          else if (c =? 116)%N then
            (rest ← strip_prefix (txt "rue") s'; Some (JBool true, rest))
          else if (c =? 102)%N then
            (rest ← strip_prefix (txt "alse") s'; Some (JBool false, rest))
          else scan_number s
      end
  end
with JSONArray (fuel : nat) (s : list N) (acc : list json) : option (json * list N) :=
  match fuel with
  | O => None
  | S fuel =>
      '(v, rest) ← scan_once fuel s;
      match skip_ws rest with
      | c :: rest' =>
          if (c =? 93)%N then Some (JList (acc ++ [v]), rest')
          else if (c =? 44)%N then JSONArray fuel (skip_ws rest') (acc ++ [v])
          else None
      | [] => None
      end
  end
with JSONObject (fuel : nat) (s : list N) (acc : list (list N * json))
  : option (json * list N) :=
  match fuel with
  | O => None
  | S fuel =>
      match s with
      | c :: s' =>
          if (c =? 34)%N then
            '(key, rest) ← scanstring s';
            match skip_ws rest with
            | c1 :: rest1 =>
                if (c1 =? 58)%N then
                  '(v, rest2) ← scan_once fuel (skip_ws rest1);
                  match skip_ws rest2 with
                  | c2 :: rest3 =>
                      if (c2 =? 125)%N then
                        Some (JDict (dict_of_pairs (acc ++ [(key, v)])), rest3)
                      else if (c2 =? 44)%N then
                        JSONObject fuel (skip_ws rest3) (acc ++ [(key, v)])
                      else None
                  | [] => None
                  end
                else None
            | [] => None
            end
          else None
      | [] => None
      end
  end.

(** [json.loads(s)]: one value, white space around it, nothing else.
    Every call of the scanner consumes a character, so the length of the
    text bounds the depth of the calls. *)
Definition json_loads (s : list N) : option json :=
  '(v, rest) ← scan_once (S (length s)) (skip_ws s);
  match skip_ws rest with
  | [] => Some v
  | _ :: _ => None
  end.

(** ** Files

    The working directory: a path names a regular file with its text, or
    a directory.  The platform is taken to write ["\n"] as it is. *)
Inductive node :=
  | File (content : list N)
  | Directory.

Abbreviation filesystem := (gmap (list N) node).

Definition isfile (fs : filesystem) (path : list N) : bool :=
  match fs !! path with
  | Some (File _) => true
  | _ => false
  end.

(** ** Serializer *)

(** Arranges the data to suit Cohere's format. *)
Definition create_rerank_ft_data (query : pyval)
    (relevant_passages hard_negatives : list pyval) : json :=
  JDict [(txt "query", to_json query);
         (txt "relevant_passages", JList (to_json <$> relevant_passages));
         (txt "hard_negatives", JList (to_json <$> hard_negatives))].

Definition row_record (row : NormalizedExample) : json :=
  create_rerank_ft_data (query row) (relevant_passages row) (hard_negatives row).

(** One [file.write(json.dumps(formatted_data) + '\n')]. *)
Definition write_row (buf : list N) (row : NormalizedExample) : list N :=
  buf ++ (json_dumps (row_record row) ++ [10%N]).

(** Creates jsonl file if does not already exist.  [open(path, 'w+')]
    starts from an empty file; it fails on a directory. *)
Definition create_jsonl_from_list (fs : filesystem) (file_name : list N)
    (df : DataFrame) : result filesystem :=
  let path := file_name ++ txt ".jsonl" in
  if negb (isfile fs path) then
    match fs !! path with
    | Some Directory => Raise IsADirectoryError
    | _ => Ok (<[path := File (foldl write_row [] (values df))]> fs)
    end
  else Ok fs.

(** The two calls of the notebook, on the training and validation slices. *)
Definition write_finetuning_files (fs : filesystem) (s : Split) : result filesystem :=
  fs ← create_jsonl_from_list fs (txt "casehold_train") (df_train s);
  create_jsonl_from_list fs (txt "casehold_valid") (df_valid s).

(** *** Reading the file back

    A text file is read line by line with universal newlines: a line
    ends at a line feed, a carriage return or the two in a row, and is
    handed over with a line feed at its end.  [jsonlines] decodes every
    line with [json.loads]. *)
Fixpoint readlines_from (cur s : list N) : list (list N) :=
  match s with
  | [] => match cur with [] => [] | _ :: _ => [cur] end
  | c :: s' =>
      if (c =? 10)%N then (cur ++ [10%N]) :: readlines_from [] s'
      else if (c =? 13)%N then
        match s' with
        | c' :: s'' =>
            if (c' =? 10)%N then (cur ++ [10%N]) :: readlines_from [] s''
            else (cur ++ [10%N]) :: readlines_from [] s'
        | [] => [cur ++ [10%N]]
        end
      else readlines_from (cur ++ [c]) s'
  end.

Definition readlines (content : list N) : list (list N) :=
  readlines_from [] content.

Definition jsonlines_read (content : list N) : option (list json) :=
  mapM json_loads (readlines content).

(** ** Evaluator

    The rerank endpoint is an external service: a call may change the
    state of the outside world, may fail, and answers with a list of
    results. *)
Record RerankRequest := {
  req_model : list N;
  req_query : pyval;
  req_documents : list pyval;
  req_top_n : Z
}.

Record RerankResult := {
  index : Z;
  relevance_score : Q
}.

Record RerankResponse := {
  results : list RerankResult
}.

(** [a / b] on integers; Python gives the float nearest to the quotient,
    the model keeps the quotient itself. *)
Definition py_truediv (a b : Z) : result Q :=
  match b with
  | Zpos p => Ok (a # p)
  | Z0 => Raise ZeroDivisionError
  | Zneg p => Ok (- a # p)
  end.

(** [sum] of a boolean series: the number of [True] entries. *)
Definition py_sum (bs : list bool) : Z :=
  foldl (λ acc (b : bool), acc + (if b then 1 else 0)) 0 bs.

(** [a == b] on two columns of one frame, entry by entry. *)
Definition series_eq (a b : Series Z) : list bool :=
  zip_with (λ x y, bool_decide (snd x = snd y)) a b.

Definition column {A B} (f : A → B) (df : Series A) : Series B :=
  prod_map id f <$> df.

Section Evaluator.
Context {world : Type}.

(** [co.rerank(model=..., query=..., documents=..., top_n=...)] *)
Variable co_rerank : RerankRequest → world → result RerankResponse * world.

(** The state threaded through the evaluation: the outside world and
    the requests sent so far (a ghost log, to state what is sent). *)
Definition session : Type := world * list RerankRequest.
Definition client (A : Type) : Type := session → result A * session.

Definition client_ret {A} (a : A) : client A := λ σ, (Ok a, σ).
Definition client_bind {A B} (m : client A) (f : A → client B) : client B :=
  λ σ, match m σ with
       | (Ok a, σ') => f a σ'
       | (Raise e, σ') => (Raise e, σ')
       end.
Definition client_lift {A} (r : result A) : client A := λ σ, (r, σ).

Definition rerank (req : RerankRequest) : client RerankResponse :=
  λ σ, let '(r, w) := co_rerank req σ.1 in (r, (w, σ.2 ++ [req])).

(** Predict index of document that correctly answers query. *)
Definition get_prediction (item : NormalizedExample) (model : list N) : client Z :=
  client_bind
    (rerank {| req_model := model; req_query := query item;
               req_documents := docs item; req_top_n := 1 |})
    (λ response,
       match results response with
       | r :: _ => client_ret (index r)
       | [] => client_lift (Raise IndexError)
       end).

(** [df.apply(f, axis=1)]: [f] on every row in order; the series of the
    answers has the index of the frame. *)
Fixpoint df_apply {A B} (f : A → client B) (df : Series A) : client (Series B) :=
  match df with
  | [] => client_ret []
  | (i, row) :: rest =>
      client_bind (f row) (λ b,
      client_bind (df_apply f rest) (λ bs,
      client_ret ((i, b) :: bs)))
  end.

(** The two lines of an accuracy cell: the predictions become a column
    of the test frame, and the accuracy is the number of rows whose
    prediction equals the label over the number of rows. *)
Definition accuracy (predictions : Series Z) (df_test : DataFrame) : result Q :=
  py_truediv (py_sum (series_eq predictions (column label df_test)))
             (Z.of_nat (length df_test)).

Definition evaluate (model : list N) (df_test : DataFrame) : client (Series Z * Q) :=
  client_bind (df_apply (λ item, get_prediction item model) df_test) (λ predictions,
  client_bind (client_lift (accuracy predictions df_test)) (λ acc,
  client_ret (predictions, acc))).
End Evaluator.

Definition baseline_model : list N := txt "rerank-english-v3.0".
Definition finetuned_model : list N := txt "9f22e08a-f1ab-4cee-9524-607dcb08c954-ft".

(** ** The cells together *)


(** The two accuracy cells, run one after the other on the test frame:
    first with the default model of [get_prediction], then with the
    fine-tuned model.  The serializer cells between them act on the
    files only. *)
Definition compare_models {world : Type}
    (co_rerank : RerankRequest → world → result RerankResponse * world)
    (df_test : DataFrame) : client (Q * Q) :=
  client_bind (evaluate co_rerank baseline_model df_test) (λ baseline,
  client_bind (evaluate co_rerank finetuned_model df_test) (λ ft,
  client_ret (snd baseline, snd ft))).

(** * Notions used to state the properties *)

(** ** Dataset records *)

(** The label of a dataset record denotes the index [i]: it is the
    integer [i] or its decimal text, the two forms a label column takes. *)
Definition label_index (example : dict) (i : Z) : Prop :=
  example !! txt "label" = Some (PyInt i) ∨
  example !! txt "label" = Some (PyStr (txt (pretty i))).

(** A record of the dataset has no candidate fields other than the five
    of [all_labels]. *)
Definition five_candidates (example : dict) : Prop :=
  ∀ s, is_Some (example !! (txt "holding_" ++ s)) → txt "holding_" ++ s ∈ all_labels.

(** The value of a run of decimal digits read after [acc]. *)
Definition dval (acc : Z) (l : list N) : Z :=
  foldl (λ a c, 10 * a + (Z.of_N c - 48)) acc l.

Definition is_digit (c : N) : Prop := (48 ≤ c ≤ 57)%N.

(** A sample record of the dataset, its five candidates, and the
    normalized example the shaper makes of it. *)
Definition sample_candidates : list pyval :=
  [PyStr (txt "holding that possession of a pipe bomb is a crime of violence");
   PyStr (txt "holding that bank robbery is a crime of violence");
   PyStr (txt "holding that sexual assault of a child qualified as crime of violence");
   PyStr (txt "holding that being a felon in possession of a firearm is not a violent felony");
   PyStr (txt "holding that a court must only look to the statutory definition")].

Definition sample_example : dict :=
  list_to_map
    [(txt "citing_prompt", PyStr (txt "See United States v. Newman (<HOLDING>)"));
     (txt "holding_0", PyStr (txt "holding that possession of a pipe bomb is a crime of violence"));
     (txt "holding_1", PyStr (txt "holding that bank robbery is a crime of violence"));
     (txt "holding_2", PyStr (txt "holding that sexual assault of a child qualified as crime of violence"));
     (txt "holding_3", PyStr (txt "holding that being a felon in possession of a firearm is not a violent felony"));
     (txt "holding_4", PyStr (txt "holding that a court must only look to the statutory definition"));
     (txt "label", PyStr (txt "2"))].

Definition sample_normalized : NormalizedExample :=
  {| query := PyStr (txt "See United States v. Newman (<HOLDING>)");
     docs := sample_candidates;
     label := 2;
     relevant_passages :=
       [PyStr (txt "holding that sexual assault of a child qualified as crime of violence")];
     hard_negatives :=
       [PyStr (txt "holding that possession of a pipe bomb is a crime of violence");
        PyStr (txt "holding that bank robbery is a crime of violence");
        PyStr (txt "holding that being a felon in possession of a firearm is not a violent felony");
        PyStr (txt "holding that a court must only look to the statutory definition")] |}.

(** The sample record with a label beyond the five candidates, and the
    sample record without its second candidate field. *)
Definition bad_label_example : dict :=
  <[txt "label" := PyStr (txt "7")]> sample_example.


(** ** Splitter *)

(** The splitter contract in the words of the specification: three
    slices with the index ranges [0,train), [train,train+valid) and
    [train+valid,train+valid+test), whose concatenation is the prefix of
    length train+valid+test. *)
Definition splitter_as_specified (d : list NormalizedExample)
    (train valid test : Z) : Prop :=
  0 ≤ train → 0 ≤ valid → 0 ≤ test →
  train + valid + test ≤ Z.of_nat (length d) →
  let s := train_valid_test_split (pd_DataFrame d) train valid test in
  row_labels (df_train s) = seq 0 (Z.to_nat train) ∧
  row_labels (df_valid s) = seq (Z.to_nat train) (Z.to_nat valid) ∧
  row_labels (df_test s) = seq (Z.to_nat (train + valid)) (Z.to_nat test) ∧
  df_train s ++ df_valid s ++ df_test s =
    take (Z.to_nat (train + valid + test)) (pd_DataFrame d).

Definition three_examples : list NormalizedExample :=
  [sample_normalized; sample_normalized; sample_normalized].

(** As many examples as the notebook loads. *)
Definition loaded_examples : list NormalizedExample :=
  replicate num_examples sample_normalized.

(** ** JSON texts *)

(** A Unicode scalar value: a code point that is not a surrogate.  The
    texts of a dataset are sequences of scalar values. *)
Definition scalar (c : N) : Prop :=
  (c < 1114112)%N ∧ ¬ (55296 ≤ c ≤ 57343)%N.

(** A printable ASCII character. *)
Definition printable (c : N) : Prop := (32 ≤ c ≤ 126)%N.

(** A JSON object made of Unicode texts, with the distinct keys of a
    Python dictionary. *)
#[local] Unset Elimination Schemes.
Inductive wf_json : json → Prop :=
  | wf_JNull : wf_json JNull
  | wf_JBool b : wf_json (JBool b)
  | wf_JInt z : wf_json (JInt z)
  | wf_JStr s : Forall scalar s → wf_json (JStr s)
  | wf_JList l : Forall wf_json l → wf_json (JList l)
  | wf_JDict kv :
      NoDup (fst <$> kv) →
      Forall (λ b, Forall scalar (fst b) ∧ wf_json (snd b)) kv →
      wf_json (JDict kv).
#[local] Set Elimination Schemes.

(** The number of scanner calls that decoding a value takes. *)
Fixpoint json_size (v : json) : nat :=
  match v with
  | JList l => S (foldr (λ x n, S (json_size x + n)) 0%nat l)
  | JDict kv => S (foldr (λ b n, S (json_size (snd b) + n)) 0%nat kv)
  | _ => 1%nat
  end.

(** What may follow a number in a JSON text: not a digit, and nothing
    that would continue it as a float. *)
Definition ends_number (rest : list N) : Prop :=
  match rest with
  | [] => True
  | c :: _ => digit_val c = None ∧ c ≠ 46%N ∧ c ≠ 101%N ∧ c ≠ 69%N
  end.

(** ** Serializer *)

(** A value of a dataset field that is a text or missing. *)
Definition text_val (v : pyval) : Prop :=
  match v with
  | PyNone => True
  | PyInt _ => False
  | PyStr s => Forall scalar s
  end.

(** A row whose query and passages are texts. *)
Definition text_row (row : NormalizedExample) : Prop :=
  text_val (query row) ∧
  Forall text_val (relevant_passages row) ∧
  Forall text_val (hard_negatives row).

(** The boolean forms of [scalar], [text_val] and [text_row]. *)
Definition scalarb (c : N) : bool :=
  ((c <? 1114112) && negb ((55296 <=? c) && (c <=? 57343)))%N.

Definition text_valb (v : pyval) : bool :=
  match v with
  | PyNone => true
  | PyInt _ => false
  | PyStr s => forallb scalarb s
  end.

Definition text_rowb (row : NormalizedExample) : bool :=
  text_valb (query row) && forallb text_valb (relevant_passages row)
  && forallb text_valb (hard_negatives row).

(** One line of the file: the JSON text of a row and a line feed. *)
Definition record_line (row : NormalizedExample) : list N :=
  json_dumps (row_record row) ++ [10%N].

(** A row with line breaks, quotes and characters beyond ASCII in its
    texts, and two sample frames. *)
Definition multiline_row : NormalizedExample :=
  {| query := PyStr ([10; 13; 34; 92; 233; 8217; 128512]%N ++ txt "line");
     docs := [];
     label := 0;
     relevant_passages := [PyStr [10%N]];
     hard_negatives := [PyNone; PyStr (txt "a/b"); PyStr [13; 10]%N; PyStr []] |}.

Definition sample_frame : DataFrame :=
  pd_DataFrame [sample_normalized; multiline_row].

Definition other_frame : DataFrame :=
  pd_DataFrame [multiline_row].

(** A directory that already holds a training file. *)
Definition old_directory : filesystem :=
  {[ txt "casehold_train.jsonl" := File (txt "{}") ]}.

(** ** Evaluator *)

(** The request the evaluator is to send for a row, and the requests for
    a frame, in the order of its rows. *)
Definition request_of (model : list N) (item : NormalizedExample) : RerankRequest :=
  {| req_model := model; req_query := query item;
     req_documents := docs item; req_top_n := 1 |}.

Definition requests (model : list N) (df : DataFrame) : list RerankRequest :=
  request_of model <$> values df.

(** The number of rows whose prediction equals the label. *)
Definition matches (predictions : Series Z) (df : DataFrame) : nat :=
  length (filter (λ p, snd (fst p) = label (snd (snd p))) (zip predictions df)).

Section EvaluatorSpec.
Context {world : Type}.
Variable co_rerank : RerankRequest → world → result RerankResponse * world.

(** What the endpoint answers to a sequence of requests sent one after
    the other from the state [w]. *)
Fixpoint answers (reqs : list RerankRequest) (w : world)
  : list (result RerankResponse) :=
  match reqs with
  | [] => []
  | req :: reqs =>
      let '(r, w') := co_rerank req w in r :: answers reqs w'
  end.

(** The endpoint answers every request with at least one result. *)
Definition answering : Prop :=
  ∀ req w, ∃ resp w',
    co_rerank req w = (Ok resp, w') ∧ results resp ≠ [].
End EvaluatorSpec.

(** The prediction [p] is the index of the top result of the answer [a]. *)
Definition top_index (p : nat * Z) (a : result RerankResponse) : Prop :=
  ∃ resp top rest, a = Ok resp ∧ results resp = top :: rest ∧ snd p = index top.

(** An endpoint for sample runs: the state counts the calls, and the
    n-th call ranks the candidate n mod 5 first. *)
Definition sample_rerank (req : RerankRequest) (n : nat)
  : result RerankResponse * nat :=
  (Ok {| results := [{| index := Z.of_nat (n mod 5); relevance_score := 1 |}] |}, S n).

Definition sample_predictions : Series Z := [(0%nat, 2); (1%nat, 3)].

(** ** Further sample data *)

(** The sample record with a sixth candidate field, which its label
    selects. *)
Definition extra_field_example : dict :=
  <[txt "holding_7" := PyStr (txt "holding that the appeal is moot")]>
    (<[txt "label" := PyInt 7]> sample_example).

(** The sample record with a null selected candidate. *)
Definition null_passage_example : dict :=
  <[txt "holding_2" := PyNone]> sample_example.

(** A short load: three examples where the notebook expects 420. *)
Definition three_rows : list NormalizedExample :=
  [sample_normalized; multiline_row; sample_normalized].

(** An endpoint that answers its first call and has no result for the
    later ones. *)
Definition tired_rerank (req : RerankRequest) (n : nat)
  : result RerankResponse * nat :=
  match n with
  | O => (Ok {| results := [{| index := 2; relevance_score := 1 |}] |}, S n)
  | S _ => (Ok {| results := [] |}, S n)
  end.

(** The sample frame with other labels and passages, and the same
    queries and documents. *)
Definition relabelled_frame : DataFrame :=
  [(0%nat, {| query := query sample_normalized; docs := docs sample_normalized;
              label := 4; relevant_passages := []; hard_negatives := [] |});
   (1%nat, {| query := query multiline_row; docs := docs multiline_row;
              label := 3; relevant_passages := [PyNone]; hard_negatives := [] |})].


(** * Properties *)

Global Instance Ok_inj {A} : Inj (=) (=) (@Ok A).
Proof. by intros a b [= ->]. Qed.

(** ** Decimal texts *)

Lemma txt_cons (a : ascii) (s : string) :
  txt (String a s) = N_of_ascii a :: txt s.
Proof. reflexivity. Qed.

Lemma txt_app (s1 s2 : string) : txt (s1 +:+ s2) = txt s1 ++ txt s2.
Proof.
  induction s1 as [|a s1 IH]; [done|].
  change (txt (String a (s1 +:+ s2)) = txt (String a s1) ++ txt s2).
  by rewrite !txt_cons, IH.
Qed.

Global Instance txt_inj : Inj (=) (=) txt.
Proof.
  intros s1. induction s1 as [|a s1 IH]; intros [|b s2] H; try done.
  rewrite !txt_cons in H. injection H as Hc Hs.
  f_equal; [|by apply IH].
  by rewrite <-(ascii_N_embedding a), <-(ascii_N_embedding b), Hc.
Qed.

Lemma dval_first c l : dval 0 (c :: l) = dval (Z.of_N c - 48) l.
Proof. reflexivity. Qed.

Lemma digit_val_digit c : is_digit c → digit_val c = Some (Z.of_N c - 48).
Proof.
  intros [H1 H2]. unfold digit_val.
  rewrite (proj2 (N.leb_le _ _) H1), (proj2 (N.leb_le _ _) H2). simpl.
  f_equal. lia.
Qed.

Lemma is_digit_cases c :
  is_digit c → c ∈ [48; 49; 50; 51; 52; 53; 54; 55; 56; 57]%N.
Proof.
  intros [H1 H2].
  assert (c = 48 ∨ c = 49 ∨ c = 50 ∨ c = 51 ∨ c = 52 ∨ c = 53 ∨ c = 54
          ∨ c = 55 ∨ c = 56 ∨ c = 57)%N as Hc by lia.
  rewrite !elem_of_cons. tauto.
Qed.

Lemma is_digit_not_space c : is_digit c → is_space c = false.
Proof.
  intros Hc%is_digit_cases.
  repeat (apply elem_of_cons in Hc as [->|Hc]; [done|]).
  by apply elem_of_nil in Hc.
Qed.

Lemma pretty_N_char_digit d :
  (d < 10)%N →
  is_digit (N_of_ascii (pretty_N_char d)) ∧
  Z.of_N (N_of_ascii (pretty_N_char d)) - 48 = Z.of_N d.
Proof.
  intros Hd.
  assert (d = 0 ∨ d = 1 ∨ d = 2 ∨ d = 3 ∨ d = 4 ∨ d = 5 ∨ d = 6 ∨ d = 7
          ∨ d = 8 ∨ d = 9)%N as Hc by lia.
  unfold is_digit.
  destruct Hc as [->|[->|[->|[->|[->|[->|[->|[->|[->| ->]]]]]]]]];
    vm_compute; intuition congruence.
Qed.

Lemma scan_digits_digits acc l :
  Forall is_digit l → scan_digits acc l = (dval acc l, []).
Proof.
  intros Hl. revert acc. induction Hl as [|c l Hc _ IH]; intros acc; [done|].
  cbn [scan_digits]. rewrite (digit_val_digit c Hc). apply IH.
Qed.

Lemma scan_int_digits_digits acc l rest :
  Forall is_digit l → hd_error rest ≫= digit_val = None →
  scan_int_digits acc (l ++ rest) = (dval acc l, rest).
Proof.
  intros Hl Hrest. revert acc. induction Hl as [|c l Hc _ IH]; intros acc.
  - destruct rest as [|c rest]; [done|]. cbn in *. by rewrite Hrest.
  - cbn [scan_int_digits app]. rewrite (digit_val_digit c Hc). apply IH.
Qed.

(** The digits [pretty] writes, and the number they read back as. *)
Lemma pretty_N_go_digits n s :
  Forall is_digit (txt s) →
  Forall is_digit (txt (pretty_N_go n s)) ∧
  dval 0 (txt (pretty_N_go n s)) = dval (Z.of_N n) (txt s).
Proof.
  revert s. induction (N.lt_wf_0 n) as [n _ IH]; intros s Hs.
  destruct (decide (n = 0)%N) as [->|Hn]; [by rewrite pretty_N_go_0|].
  rewrite pretty_N_go_step by lia.
  destruct (pretty_N_char_digit (n `mod` 10)) as [Hd Hv];
    [by apply N.mod_lt|].
  destruct (IH (n `div` 10)%N) with (s := String (pretty_N_char (n `mod` 10)) s)
    as [IH1 IH2].
  { apply N.div_lt; lia. }
  { rewrite txt_cons. by constructor. }
  split; [done|]. rewrite IH2, txt_cons. cbn [dval foldl].
  f_equal. rewrite Hv. pose proof (N.div_mod n 10). lia.
Qed.

Lemma pretty_N_digits n :
  ∃ c l, txt (pretty n) = c :: l ∧ Forall is_digit (c :: l) ∧
         dval 0 (c :: l) = Z.of_N n.
Proof.
  unfold pretty, pretty_N. case_decide as Hn.
  - subst n. exists 48%N, []. split; [done|]. split; [|done].
    constructor; [unfold is_digit; lia|constructor].
  - destruct (pretty_N_go_digits n EmptyString) as [H1 H2]; [constructor|].
    destruct (txt (pretty_N_go n EmptyString)) as [|c l] eqn:E.
    + cbn in H2. lia.
    + exists c, l. by rewrite H2.
Qed.

Lemma pretty_Z_digits z :
  ∃ c l, txt (pretty z) = (if bool_decide (z < 0) then [45%N] else []) ++ c :: l ∧
         Forall is_digit (c :: l) ∧ dval 0 (c :: l) = Z.abs z.
Proof.
  destruct z as [|p|p].
  - exists 48%N, []. split; [done|]. split; [|done].
    constructor; [unfold is_digit; lia|constructor].
  - destruct (pretty_N_digits (Npos p)) as (c & l & E & ? & ?).
    exists c, l. split; [|done]. rewrite bool_decide_false by lia. exact E.
  - destruct (pretty_N_digits (Npos p)) as (c & l & E & ? & ?).
    exists c, l. split; [|done]. rewrite bool_decide_true by lia.
    change (pretty (Z.neg p)) with ("-" +:+ pretty (Npos p)).
    by rewrite txt_app, E.
Qed.

(** [int(str(z)) == z] *)
Lemma int_of_str_pretty (z : Z) : int_of_str (txt (pretty z)) = Some z.
Proof.
  destruct (pretty_Z_digits z) as (c & l & -> & Hd & Hv).
  inversion Hd as [|? ? Hc Hl]; subst.
  unfold int_of_str. case_bool_decide as Hz; cbn [app skip_spaces].
  - change (is_space 45) with false. cbn [scan_sign].
    rewrite (digit_val_digit c Hc), (scan_digits_digits _ l Hl). cbn.
    f_equal. rewrite dval_first in Hv. lia.
  - rewrite (is_digit_not_space c Hc).
    assert (scan_sign (c :: l) = (false, c :: l)) as ->.
    { apply is_digit_cases in Hc.
      repeat (apply elem_of_cons in Hc as [->|Hc]; [done|]).
      by apply elem_of_nil in Hc. }
    rewrite (digit_val_digit c Hc), (scan_digits_digits _ l Hl). cbn.
    f_equal. rewrite dval_first in Hv. lia.
Qed.

(** ** Record shaper *)

Lemma all_labels_lookup (i : Z) :
  0 ≤ i < 5 →
  all_labels !! Z.to_nat i = Some (txt "holding_" ++ txt (pretty i)).
Proof.
  intros Hi.
  assert (i = 0 ∨ i = 1 ∨ i = 2 ∨ i = 3 ∨ i = 4) as Hc by lia.
  destruct Hc as [->|[->|[->|[->| ->]]]]; reflexivity.
Qed.

Lemma all_labels_NoDup : NoDup all_labels.
Proof. apply (bool_decide_unpack (NoDup all_labels)). by vm_compute. Qed.

Lemma all_labels_suffix (s : list N) :
  txt "holding_" ++ s ∈ all_labels →
  ∃ i, 0 ≤ i < 5 ∧ s = txt (pretty i).
Proof.
  unfold all_labels. rewrite list_elem_of_fmap. intros (s' & Heq & Hin).
  apply app_inv_head in Heq as ->.
  rewrite !elem_of_cons, elem_of_nil in Hin.
  destruct Hin as [->|[->|[->|[->|[->|[]]]]]];
    [exists 0|exists 1|exists 2|exists 3|exists 4]; (split; [lia|reflexivity]).
Qed.

(** A label whose text names one of the five fields is an index below
    five, written as an integer or as its decimal text. *)
Lemma selected_label_index (v : pyval) :
  txt "holding_" ++ py_str v ∈ all_labels →
  ∃ i, 0 ≤ i < 5 ∧ (v = PyInt i ∨ v = PyStr (txt (pretty i))) ∧
       py_str v = txt (pretty i) ∧ py_int v = Ok i.
Proof.
  intros (i & Hi & Hs)%all_labels_suffix. exists i. split; [done|].
  destruct v as [|z|s]; cbn in Hs.
  - exfalso. assert (i = 0 ∨ i = 1 ∨ i = 2 ∨ i = 3 ∨ i = 4) as Hc by lia.
    destruct Hc as [->|[->|[->|[->| ->]]]]; discriminate Hs.
  - apply (inj txt), (inj pretty) in Hs as ->.
    split_and!; [by left|done|done].
  - subst s. split_and!; [by right|done|].
    cbn. by rewrite int_of_str_pretty.
Qed.

Lemma filter_Forall_id {A} (P : A → Prop) `{∀ x, Decision (P x)} (l : list A) :
  Forall P l → filter P l = l.
Proof.
  induction 1 as [|x l Hx _ IH]; [done|].
  by rewrite filter_cons_True, IH.
Qed.

Lemma filter_ne_delete {A} `{EqDecision A} (l : list A) (i : nat) (x : A) :
  NoDup l → l !! i = Some x → filter (λ y, y ≠ x) l = delete i l.
Proof.
  intros Hnd. revert i. induction Hnd as [|y l Hy Hnd IH]; intros i Hi; [done|].
  destruct i as [|i]; cbn in Hi.
  - injection Hi as ->. rewrite filter_cons_False by (intros ?; done).
    cbn. apply filter_Forall_id, Forall_forall. by intros z Hz ->.
  - rewrite filter_cons_True.
    + cbn. f_equal. by apply IH.
    + intros ->. apply Hy. by eapply list_elem_of_lookup_2.
Qed.

(** What the loop body computes on a record whose label is an index
    below five, as soon as the query and the selected passage are there. *)
Lemma shape_in_range (example : dict) (i : Z) (q rp : pyval) :
  label_index example i → 0 ≤ i < 5 →
  example !! txt "citing_prompt" = Some q →
  example !! (txt "holding_" ++ txt (pretty i)) = Some rp →
  shape example =
    Ok {| query := q; docs := get example <$> all_labels; label := i;
          relevant_passages := [rp];
          hard_negatives := delete (Z.to_nat i) (get example <$> all_labels) |}.
Proof.
  intros Hl Hi Hq Hrp. unfold shape, getitem.
  assert (∃ lbl, example !! txt "label" = Some lbl ∧
                 py_str lbl = txt (pretty i) ∧ py_int lbl = Ok i)
    as (lbl & -> & Hstr & Hint).
  { destruct Hl as [Hl|Hl]; eexists; (split; [exact Hl|]); split; try done.
    cbn. by rewrite int_of_str_pretty. }
  cbn [mbind result_bind]. rewrite Hq. cbn [mbind result_bind].
  rewrite Hint, Hstr. cbn [mbind result_bind]. rewrite Hrp.
  cbn [mbind result_bind].
  rewrite (filter_ne_delete all_labels (Z.to_nat i))
    by auto using all_labels_NoDup, all_labels_lookup.
  by rewrite list_fmap_delete.
Qed.

Lemma get_candidates (example : dict) (keys : list (list N)) (cands : list pyval) :
  Forall2 (λ key c, example !! key = Some c) keys cands →
  get example <$> keys = cands.
Proof.
  induction 1 as [|key c keys cands Hk _ IH]; [done|].
  cbn. unfold get at 1. rewrite Hk. cbn. by f_equal.
Qed.

(** C1. On a record whose label is an index [i] below five and whose five
    candidate passages are present, shaping gives a normalized example
    whose relevant passages are the one candidate at [i] and whose hard
    negatives are the other four in their order; the two lists have
    lengths 1 and 4 and together hold the five candidates. *)
Theorem shape_contract (example : dict) (q : pyval) (cands : list pyval) (i : Z) :
  example !! txt "citing_prompt" = Some q →
  label_index example i →
  0 ≤ i < 5 →
  Forall2 (λ key c, example !! key = Some c) all_labels cands →
  ∃ ne c,
    shape example = Ok ne ∧
    cands !! Z.to_nat i = Some c ∧
    relevant_passages ne = [c] ∧
    hard_negatives ne = delete (Z.to_nat i) cands ∧
    length (relevant_passages ne) = 1%nat ∧
    length (hard_negatives ne) = 4%nat ∧
    relevant_passages ne ++ hard_negatives ne ≡ₚ cands.
Proof.
  intros Hq Hl Hi Hc.
  destruct (Forall2_lookup_l _ _ _ _ _ Hc (all_labels_lookup i Hi))
    as (c & Hci & Hrp).
  eexists _, c. split; [by eapply shape_in_range|].
  cbn [relevant_passages hard_negatives].
  rewrite (get_candidates _ _ _ Hc).
  split_and!; try done.
  - rewrite length_delete by eauto.
    apply Forall2_length in Hc. rewrite <-Hc. done.
  - symmetry. by apply delete_Permutation.
Qed.

Lemma shape_contract_witness :
  ∃ ne c,
    shape sample_example = Ok ne ∧
    sample_candidates !! Z.to_nat 2 = Some c ∧
    relevant_passages ne = [c] ∧
    hard_negatives ne = delete (Z.to_nat 2) sample_candidates ∧
    length (relevant_passages ne) = 1%nat ∧
    length (hard_negatives ne) = 4%nat ∧
    relevant_passages ne ++ hard_negatives ne ≡ₚ sample_candidates.
Proof.
  apply (shape_contract sample_example
           (PyStr (txt "See United States v. Newman (<HOLDING>)"))
           sample_candidates 2).
  - reflexivity.
  - right; reflexivity.
  - lia.
  - repeat constructor.
Defined.

(** The sample record has the five candidate fields and no other. *)
Lemma sample_example_five : five_candidates sample_example.
Proof.
  intros s [v Hv]. unfold sample_example in Hv.
  apply elem_of_list_to_map_2 in Hv.
  rewrite !elem_of_cons, elem_of_nil in Hv.
  destruct Hv as [Hv|[Hv|[Hv|[Hv|[Hv|[Hv|[Hv|[]]]]]]]];
    injection Hv as Hk _; try discriminate Hk;
    rewrite Hk; apply (bool_decide_unpack _); by vm_compute.
Qed.

(** C8. The label of a normalized example made from a dataset record is
    the index the record's label denotes, it is below five, and the
    candidate at that position of [docs] is the one relevant passage. *)
Theorem label_points_to_relevant (example : dict) (ne : NormalizedExample) :
  five_candidates example →
  shape example = Ok ne →
  label_index example (label ne) ∧
  0 ≤ label ne < 5 ∧
  length (docs ne) = 5%nat ∧
  ∃ rp, relevant_passages ne = [rp] ∧
        docs ne !! Z.to_nat (label ne) = Some rp.
Proof.
  intros Hfive. unfold shape, getitem.
  destruct (example !! txt "label") as [lbl|] eqn:Hlbl; [|done].
  cbn [mbind result_bind].
  destruct (example !! txt "citing_prompt") as [q|] eqn:Hq; [|done].
  cbn [mbind result_bind].
  destruct (py_int lbl) as [l|] eqn:Hint; [|done].
  cbn [mbind result_bind].
  destruct (example !! (txt "holding_" ++ py_str lbl)) as [rp|] eqn:Hrp; [|done].
  cbn [mbind result_bind]. intros <-%(inj Ok). cbn [label docs relevant_passages].
  destruct (selected_label_index lbl) as (i & Hi & Hform & Hstr & Hint').
  { apply Hfive. by rewrite Hrp. }
  rewrite Hint in Hint'. injection Hint' as ->.
  split_and!; try lia.
  - unfold label_index. rewrite Hlbl. destruct Hform as [-> | ->]; auto.
  - done.
  - exists rp. split; [done|].
    rewrite list_lookup_fmap, (all_labels_lookup i Hi). cbn [fmap option_fmap option_map].
    unfold get. by rewrite <-Hstr, Hrp.
Qed.

Lemma shape_sample : shape sample_example = Ok sample_normalized.
Proof. by vm_compute. Qed.

Lemma label_points_to_relevant_witness :
  label_index sample_example (label sample_normalized) ∧
  0 ≤ label sample_normalized < 5 ∧
  length (docs sample_normalized) = 5%nat ∧
  ∃ rp, relevant_passages sample_normalized = [rp] ∧
        docs sample_normalized !! Z.to_nat (label sample_normalized) = Some rp.
Proof.
  apply (label_points_to_relevant sample_example sample_normalized).
  - exact sample_example_five.
  - by vm_compute.
Defined.



Lemma five_candidates_delete (example : dict) (k : list N) :
  five_candidates example → five_candidates (delete k example).
Proof.
  intros Hfive s [v Hv]. apply Hfive. exists v.
  by apply lookup_delete_Some in Hv as [_ Hv].
Qed.




(** The label as an integer gives the same normalized example as its
    decimal text. *)
Example shape_integer_label :
  shape (<[txt "label" := PyInt 2]> sample_example) = Ok sample_normalized.
Proof. by vm_compute. Qed.

(** A label text that [int] accepts but that is not the plain decimal
    form names no field: the selected passage is looked up under the
    text as it is. *)
Example shape_padded_label :
  shape (<[txt "label" := PyStr (txt " 2")]> sample_example)
  = Raise (KeyError (txt "holding_ 2")).
Proof. by vm_compute. Qed.

(** ** Splitter *)

Lemma py_slice_upto {A} (l : list A) (b : Z) :
  0 ≤ b → py_slice l None (Some b) = take (Z.to_nat b) l.
Proof.
  intros Hb. unfold py_slice, slice_bound. cbn [from_option].
  rewrite (proj2 (Z.ltb_ge b 0)) by done. rewrite drop_0, Z.sub_0_r.
  destruct (Z.min_spec b (Z.of_nat (length l))) as [[? ->]|[? ->]]; [done|].
  rewrite Nat2Z.id, !take_ge by lia. done.
Qed.

Lemma py_slice_between {A} (l : list A) (a b : Z) :
  0 ≤ a ≤ b → b ≤ Z.of_nat (length l) →
  py_slice l (Some a) (Some b) = take (Z.to_nat (b - a)) (drop (Z.to_nat a) l).
Proof.
  intros Ha Hb. unfold py_slice, slice_bound. cbn [from_option].
  rewrite !(proj2 (Z.ltb_ge _ 0)) by lia. by rewrite !Z.min_l by lia.
Qed.

Lemma py_slice_from {A} (l : list A) (a : Z) :
  0 ≤ a → py_slice l (Some a) None = drop (Z.to_nat a) l.
Proof.
  intros Ha. unfold py_slice, slice_bound. cbn [from_option].
  rewrite (proj2 (Z.ltb_ge a 0)) by done.
  destruct (Z.min_spec a (Z.of_nat (length l))) as [[? ->]|[? ->]].
  - apply take_ge. rewrite length_drop. lia.
  - rewrite !drop_ge by lia. by rewrite take_nil.
Qed.

Lemma row_labels_DataFrame (d : list NormalizedExample) :
  row_labels (pd_DataFrame d) = seq 0 (length d).
Proof. apply fst_zip. by rewrite length_seq. Qed.

Lemma values_DataFrame (d : list NormalizedExample) :
  values (pd_DataFrame d) = d.
Proof. apply snd_zip. by rewrite length_seq. Qed.

Lemma length_DataFrame (d : list NormalizedExample) :
  length (pd_DataFrame d) = length d.
Proof. by rewrite <-(values_DataFrame d) at 2; unfold values; rewrite length_fmap. Qed.

(** The slices of the notebook, for counts that fit in the frame. *)
Lemma split_slices (df : DataFrame) (train valid test : Z) :
  0 ≤ train → 0 ≤ valid → train + valid ≤ Z.of_nat (length df) →
  train_valid_test_split df train valid test =
    {| df_train := take (Z.to_nat train) df;
       df_valid := take (Z.to_nat valid) (drop (Z.to_nat train) df);
       df_test := drop (Z.to_nat train + Z.to_nat valid) df |}.
Proof.
  intros Ht Hv Hn. unfold train_valid_test_split.
  rewrite py_slice_upto, py_slice_between, py_slice_from by lia.
  do 3 f_equal; lia.
Qed.

Lemma split_concat (df : DataFrame) (t v : nat) :
  take t df ++ take v (drop t df) ++ drop (t + v) df = df.
Proof. by rewrite app_assoc, take_take_drop, take_drop. Qed.

(** The index labels and the rows of the three slices. *)
Lemma split_rows (d : list NormalizedExample) (train valid test : Z) :
  0 ≤ train → 0 ≤ valid → train + valid ≤ Z.of_nat (length d) →
  let s := train_valid_test_split (pd_DataFrame d) train valid test in
  let t := Z.to_nat train in
  let v := Z.to_nat valid in
  (row_labels (df_train s) = seq 0 t ∧ values (df_train s) = take t d) ∧
  (row_labels (df_valid s) = seq t v ∧ values (df_valid s) = take v (drop t d)) ∧
  (row_labels (df_test s) = seq (t + v) (length d - (t + v)) ∧
   values (df_test s) = drop (t + v) d) ∧
  df_train s ++ df_valid s ++ df_test s = pd_DataFrame d.
Proof.
  intros Ht Hv Hn s t v. subst s.
  rewrite split_slices by (rewrite ?length_DataFrame; lia).
  cbn [df_train df_valid df_test]. fold t v.
  unfold row_labels, values.
  rewrite !fmap_take, !fmap_drop.
  fold (row_labels (pd_DataFrame d)) (values (pd_DataFrame d)).
  rewrite row_labels_DataFrame, values_DataFrame.
  rewrite !drop_seq, !take_seq.
  split_and!; try done.
  - f_equal. lia.
  - f_equal; lia.
  - apply split_concat.
Qed.

(** C2 (amended). For counts that fit in the frame, the training slice
    has the index range [0,train) and the validation slice the range
    [train,train+valid); the test slice holds all the rows from
    train+valid on, whatever the test count.  The three slices are
    contiguous, in order, share no index label and concatenate to the
    whole frame.  When the three counts add up to the number of rows, the
    test slice is the range [train+valid,train+valid+test) and the
    concatenation is the prefix of that length. *)
Theorem split_partition (d : list NormalizedExample) (train valid test : Z) :
  0 ≤ train → 0 ≤ valid → 0 ≤ test →
  train + valid + test ≤ Z.of_nat (length d) →
  let s := train_valid_test_split (pd_DataFrame d) train valid test in
  let t := Z.to_nat train in
  let v := Z.to_nat valid in
  (row_labels (df_train s) = seq 0 t ∧ values (df_train s) = take t d) ∧
  (row_labels (df_valid s) = seq t v ∧ values (df_valid s) = take v (drop t d)) ∧
  (row_labels (df_test s) = seq (t + v) (length d - (t + v)) ∧
   values (df_test s) = drop (t + v) d) ∧
  NoDup (row_labels (df_train s) ++ row_labels (df_valid s) ++ row_labels (df_test s)) ∧
  df_train s ++ df_valid s ++ df_test s = pd_DataFrame d ∧
  (train + valid + test = Z.of_nat (length d) →
   row_labels (df_test s) = seq (t + v) (Z.to_nat test) ∧
   df_train s ++ df_valid s ++ df_test s =
     take (Z.to_nat (train + valid + test)) (pd_DataFrame d)).
Proof.
  intros Ht Hv Hte Hn s t v.
  destruct (split_rows d train valid test)
    as ([Htr Htr'] & [Hva Hva'] & [Hts Hts'] & Hcat); [lia..|].
  fold s t v in Htr, Htr', Hva, Hva', Hts, Hts', Hcat.
  split_and!; try done.
  - unfold row_labels. rewrite <-!fmap_app, Hcat.
    fold (row_labels (pd_DataFrame d)). rewrite row_labels_DataFrame.
    apply NoDup_seq.
  - intros Hsum. split.
    + rewrite Hts. f_equal. lia.
    + rewrite Hcat, take_ge; [done|]. rewrite length_DataFrame. lia.
Qed.

Lemma split_partition_witness :
  let s := train_valid_test_split (pd_DataFrame three_examples) 1 1 0 in
  row_labels (df_train s) = [0%nat] ∧
  row_labels (df_valid s) = [1%nat] ∧
  row_labels (df_test s) = [2%nat] ∧
  df_train s ++ df_valid s ++ df_test s = pd_DataFrame three_examples.
Proof.
  destruct (split_partition three_examples 1 1 0) as ([H1 _] & [H2 _] & [H3 _] & _ & H4 & _).
  - lia.
  - lia.
  - lia.
  - vm_compute. discriminate.
  - split; [exact H1|]. split; [exact H2|]. split; [exact H3|exact H4].
Defined.

(** C2 as the specification words it fails on three rows split with the
    counts 1, 1 and 0: the test slice holds the third row, where the
    specified range [2,2) is empty. *)
Lemma splitter_as_specified_counterexample :
  ¬ splitter_as_specified three_examples 1 1 0.
Proof.
  intros H. destruct H as (_ & _ & Htest & _).
  - lia.
  - lia.
  - lia.
  - vm_compute. discriminate.
  - vm_compute in Htest. discriminate Htest.
Qed.



(** C3. With 420 loaded examples and the counts of the notebook, the
    slices have 256, 154 and 10 rows, with the index ranges [0,256),
    [256,410) and [410,420); no index label is in two slices. *)
Theorem split_notebook_sizes (d : list NormalizedExample) :
  length d = 420%nat →
  let s := train_valid_test_split (pd_DataFrame d) train_num valid_num test_num in
  (length (df_train s) = 256 ∧ length (df_valid s) = 154 ∧ length (df_test s) = 10)%nat ∧
  (row_labels (df_train s) = seq 0 256 ∧
   row_labels (df_valid s) = seq 256 154 ∧
   row_labels (df_test s) = seq 410 10) ∧
  (∀ i, ¬ (i ∈ row_labels (df_train s) ∧ i ∈ row_labels (df_valid s))) ∧
  (∀ i, ¬ (i ∈ row_labels (df_train s) ∧ i ∈ row_labels (df_test s))) ∧
  (∀ i, ¬ (i ∈ row_labels (df_valid s) ∧ i ∈ row_labels (df_test s))).
Proof.
  intros Hlen s.
  destruct (split_rows d train_num valid_num test_num)
    as ([Htr _] & [Hva _] & [Hts _] & _);
    [unfold train_num, valid_num; lia..|].
  fold s in Htr, Hva, Hts. rewrite Hlen in Hts.
  change (Z.to_nat train_num) with 256%nat in *.
  change (Z.to_nat valid_num) with 154%nat in *.
  change (420 - (256 + 154))%nat with 10%nat in Hts.
  change (256 + 154)%nat with 410%nat in Hts.
  assert (∀ df : DataFrame, length df = length (row_labels df)) as Hlab.
  { intros df. unfold row_labels. by rewrite length_fmap. }
  rewrite !Hlab, Htr, Hva, Hts, !length_seq.
  split_and!; try done; intros i; rewrite !elem_of_seq; lia.
Qed.

Lemma split_notebook_sizes_witness :
  let s := train_valid_test_split (pd_DataFrame loaded_examples)
             train_num valid_num test_num in
  (length (df_train s) = 256 ∧ length (df_valid s) = 154 ∧ length (df_test s) = 10)%nat.
Proof.
  apply (split_notebook_sizes loaded_examples). reflexivity.
Defined.

(** ** JSON texts *)

(** Induction on JSON objects, with the hypothesis for every element of
    a list and every value of a dictionary. *)
Lemma json_ind (P : json → Prop) :
  P JNull → (∀ b, P (JBool b)) → (∀ z, P (JInt z)) → (∀ s, P (JStr s)) →
  (∀ l, Forall P l → P (JList l)) →
  (∀ kv, Forall (λ b, P (snd b)) kv → P (JDict kv)) →
  ∀ v, P v.
Proof.
  intros Hnull Hbool Hint Hstr Hlist Hdict.
  fix IH 1. intros [ |b|z|s|l|kv].
  - exact Hnull.
  - apply Hbool.
  - apply Hint.
  - apply Hstr.
  - apply Hlist. induction l as [|x l IHl]; constructor; [apply IH|exact IHl].
  - apply Hdict. induction kv as [|[k x] kv IHkv]; constructor;
      [apply IH|exact IHkv].
Qed.

Lemma printable_txt_check (s : string) :
  forallb (λ c, (32 <=? c)%N && (c <=? 126)%N) (txt s) = true →
  Forall printable (txt s).
Proof.
  intros H. apply Forall_forall. intros c Hc%list_elem_of_In.
  rewrite forallb_forall in H. specialize (H c Hc).
  apply andb_true_iff in H as [?%N.leb_le ?%N.leb_le]. by split.
Qed.

Lemma hex_digit_printable d : (d < 16)%N → printable (hex_digit d).
Proof.
  intros Hd. unfold hex_digit, printable. destruct (N.ltb_spec d 10); lia.
Qed.

Lemma escape_u_printable n : Forall printable (escape_u n).
Proof.
  unfold escape_u. rewrite !Forall_cons.
  split_and!; try (apply hex_digit_printable; by apply N.mod_lt);
    try (unfold printable; lia).
  constructor.
Qed.

Lemma escape_char_printable c : Forall printable (escape_char c).
Proof.
  unfold escape_char.
  repeat (case_match; [repeat constructor; unfold printable; lia|]).
  repeat case_match; rewrite ?Forall_app; auto using escape_u_printable.
  apply Forall_cons; split; [|constructor].
  match goal with H : _ && _ = true |- _ =>
    apply andb_true_iff in H as [?%N.leb_le ?%N.leb_le] end.
  by split.
Qed.

Lemma encode_basestring_printable s : Forall printable (encode_basestring_ascii s).
Proof.
  unfold encode_basestring_ascii. rewrite !Forall_app. split_and!.
  - repeat constructor; unfold printable; lia.
  - induction s as [|c s IH]; [constructor|].
    cbn [fmap list_fmap concat]. rewrite Forall_app.
    split; [apply escape_char_printable|exact IH].
  - repeat constructor; unfold printable; lia.
Qed.

Lemma join_printable sep parts :
  Forall printable sep → Forall (Forall printable) parts →
  Forall printable (join sep parts).
Proof.
  intros Hsep. induction 1 as [|p parts Hp Hparts IH]; [constructor|].
  cbn [join]. destruct parts; [done|]. rewrite !Forall_app. auto.
Qed.

Lemma pretty_Z_printable (z : Z) : Forall printable (txt (pretty z)).
Proof.
  destruct (pretty_Z_digits z) as (c & l & -> & Hd & _).
  rewrite Forall_app. split.
  - case_bool_decide; repeat constructor; unfold printable; lia.
  - eapply Forall_impl; [exact Hd|]. unfold is_digit, printable. lia.
Qed.

(** [json.dumps] writes printable ASCII characters only: no line feed
    and no carriage return, whatever the texts hold. *)
Lemma json_dumps_printable v : Forall printable (json_dumps v).
Proof.
  induction v as [ |b|z|s|l IH|kv IH] using json_ind; cbn [json_dumps].
  - by apply printable_txt_check.
  - destruct b; by apply printable_txt_check.
  - apply pretty_Z_printable.
  - apply encode_basestring_printable.
  - rewrite !Forall_app.
    split_and!; [by apply printable_txt_check| |by apply printable_txt_check].
    apply join_printable; [by apply printable_txt_check|].
    by apply Forall_fmap.
  - rewrite !Forall_app.
    split_and!; [by apply printable_txt_check| |by apply printable_txt_check].
    apply join_printable; [by apply printable_txt_check|].
    apply Forall_fmap. eapply Forall_impl; [exact IH|]. intros [k x] Hx.
    unfold compose. cbn [fst snd] in *. rewrite !Forall_app.
    split_and!; [apply encode_basestring_printable|by apply printable_txt_check|exact Hx].
Qed.

(** ** Decoding what the encoder writes *)

Lemma hex_val_hex_digit d : (d < 16)%N → hex_val (hex_digit d) = Some d.
Proof.
  intros Hd.
  assert (d = 0 ∨ d = 1 ∨ d = 2 ∨ d = 3 ∨ d = 4 ∨ d = 5 ∨ d = 6 ∨ d = 7
          ∨ d = 8 ∨ d = 9 ∨ d = 10 ∨ d = 11 ∨ d = 12 ∨ d = 13 ∨ d = 14
          ∨ d = 15)%N as Hc by lia.
  repeat (destruct Hc as [->|Hc]; [done|]). by subst d.
Qed.

Lemma decode_escape_u n a b c d :
  (n < 65536)%N → escape_u n = [92; 117; a; b; c; d]%N →
  decode_uXXXX a b c d = Some n.
Proof.
  intros Hn [= <- <- <- <-]. unfold decode_uXXXX.
  rewrite !hex_val_hex_digit by (by apply N.mod_lt). cbn [mbind option_bind].
  f_equal.
  replace (n / 4096)%N with (n / 16 / 16 / 16)%N
    by (by rewrite !N.Div0.div_div).
  replace (n / 256)%N with (n / 16 / 16)%N by (by rewrite !N.Div0.div_div).
  assert (∀ a, a = 16 * (a / 16) + a mod 16 ∧ a mod 16 < 16)%N as Hdm.
  { intros a. split; [by apply N.div_mod|by apply N.mod_lt]. }
  destruct (Hdm n), (Hdm (n / 16)%N), (Hdm (n / 16 / 16)%N),
    (Hdm (n / 16 / 16 / 16)%N).
  generalize dependent (n / 16 / 16 / 16 / 16)%N.
  generalize dependent ((n / 16 / 16 / 16) mod 16)%N.
  generalize dependent (n / 16 / 16 / 16)%N.
  generalize dependent ((n / 16 / 16) mod 16)%N.
  generalize dependent (n / 16 / 16)%N.
  generalize dependent ((n / 16) mod 16)%N.
  generalize dependent (n / 16)%N.
  generalize dependent (n mod 16)%N.
  intros. lia.
Qed.

Lemma land_shiftl_low a b k : (b < 2 ^ k)%N → N.land (N.shiftl a k) b = 0%N.
Proof.
  intros Hb. apply N.bits_inj. intros i.
  rewrite N.land_spec, N.bits_0.
  destruct (N.lt_ge_cases i k) as [Hi|Hi].
  - by rewrite N.shiftl_spec_low.
  - rewrite <-(N.mod_small b (2 ^ k)) by done.
    rewrite N.mod_pow2_bits_high by done. apply andb_false_r.
Qed.

Lemma lor_shiftl_low a b k :
  (b < 2 ^ k)%N → N.lor (N.shiftl a k) b = (a * 2 ^ k + b)%N.
Proof.
  intros Hb. rewrite <-N.lxor_lor, <-N.add_nocarry_lxor
    by (by apply land_shiftl_low).
  by rewrite N.shiftl_mul_pow2.
Qed.

(** The two halves of a code point beyond the basic plane. *)
Lemma surrogate_pair c :
  (65536 ≤ c < 1114112)%N →
  let n := (c - 65536)%N in
  let s1 := N.lor 55296 (N.land (N.shiftr n 10) 1023) in
  let s2 := N.lor 56320 (N.land n 1023) in
  is_high_surrogate s1 = true ∧ is_low_surrogate s2 = true ∧
  (65536 + N.lor (N.shiftl (s1 - 55296) 10) (s2 - 56320))%N = c.
Proof.
  intros Hc n s1 s2.
  assert (n / 1024 < 1024 ∧ n mod 1024 < 1024)%N as [Hq Hr].
  { split; [apply N.Div0.div_lt_upper_bound; subst n; lia|by apply N.mod_lt]. }
  pose proof (N.div_mod n 1024) as Hn.
  assert (s1 = 55296 + n / 1024)%N as Hs1.
  { subst s1. change 55296%N with (N.shiftl 54 10).
    change 1023%N with (N.ones 10).
    rewrite N.land_ones, N.shiftr_div_pow2. change (2 ^ 10)%N with 1024%N.
    rewrite lor_shiftl_low by (by apply N.mod_lt).
    rewrite N.shiftl_mul_pow2. change (2 ^ 10)%N with 1024%N.
    rewrite (N.mod_small (n / 1024) 1024) by done. lia. }
  assert (s2 = 56320 + n mod 1024)%N as Hs2.
  { subst s2. change 56320%N with (N.shiftl 55 10).
    change 1023%N with (N.ones 10).
    rewrite N.land_ones. change (2 ^ 10)%N with 1024%N.
    rewrite lor_shiftl_low by (by apply N.mod_lt).
    rewrite N.shiftl_mul_pow2. change (2 ^ 10)%N with 1024%N. lia. }
  clearbody s1 s2. subst s1 s2.
  specialize (Hn ltac:(done)).
  set (q := (n / 1024)%N) in *. set (r := (n mod 1024)%N) in *.
  clearbody q r.
  split_and!.
  - unfold is_high_surrogate. apply andb_true_iff.
    split; apply N.leb_le; lia.
  - unfold is_low_surrogate. apply andb_true_iff.
    split; apply N.leb_le; lia.
  - replace (55296 + q - 55296)%N with q by lia.
    replace (56320 + r - 56320)%N with r by lia.
    rewrite lor_shiftl_low by exact Hr. change (2 ^ 10)%N with 1024%N.
    subst n. lia.
Qed.

Lemma scanstring_plain c tail :
  c ≠ 34%N → c ≠ 92%N → (32 ≤ c)%N →
  scanstring (c :: tail) = cons_char c (scanstring tail).
Proof.
  intros H1 H2 H3. cbn [scanstring].
  rewrite (proj2 (N.eqb_neq c 34)), (proj2 (N.eqb_neq c 92)) by done.
  by rewrite (proj2 (N.ltb_ge c 32)).
Qed.

Lemma scanstring_short e c tail :
  e ≠ 117%N → backslash e = Some c →
  scanstring (92%N :: e :: tail) = cons_char c (scanstring tail).
Proof.
  intros He Hb. cbn [scanstring].
  change (92 =? 34)%N with false. change (92 =? 92)%N with true. cbn match.
  rewrite (proj2 (N.eqb_neq e 117)) by done. by rewrite Hb.
Qed.

Lemma scanstring_u a b c d uni tail :
  decode_uXXXX a b c d = Some uni → is_high_surrogate uni = false →
  scanstring (92 :: 117 :: a :: b :: c :: d :: tail)%N
  = cons_char uni (scanstring tail).
Proof.
  intros Hd Hh. cbn [scanstring].
  change (92 =? 34)%N with false. change (92 =? 92)%N with true.
  change (117 =? 117)%N with true. cbn match.
  by rewrite Hd, Hh.
Qed.

Lemma scanstring_pair a b c d a' b' c' d' hi lo tail :
  decode_uXXXX a b c d = Some hi → is_high_surrogate hi = true →
  decode_uXXXX a' b' c' d' = Some lo → is_low_surrogate lo = true →
  scanstring (92 :: 117 :: a :: b :: c :: d :: 92 :: 117 :: a' :: b' :: c' :: d' :: tail)%N
  = cons_char (65536 + N.lor (N.shiftl (hi - 55296) 10) (lo - 56320))%N
      (scanstring tail).
Proof.
  intros Hd Hh Hd' Hl. cbn [scanstring].
  change (92 =? 34)%N with false. change (92 =? 92)%N with true.
  change (117 =? 117)%N with true. cbn match.
  rewrite Hd, Hh. cbn [andb]. by rewrite Hd', Hl.
Qed.

Lemma escape_u_bound n : (n < 65536)%N →
  ∃ a b c d, escape_u n = [92; 117; a; b; c; d]%N ∧ decode_uXXXX a b c d = Some n.
Proof. intros Hn. do 4 eexists. split; [done|]. by eapply decode_escape_u. Qed.

(** One character written by the encoder reads back as itself. *)
Lemma scanstring_escape_char c tail :
  scalar c →
  scanstring (escape_char c ++ tail) = cons_char c (scanstring tail).
Proof.
  intros [Hc Hs]. unfold escape_char.
  destruct (N.eqb_spec c 34) as [->|?]; [by apply scanstring_short|].
  destruct (N.eqb_spec c 92) as [->|?]; [by apply scanstring_short|].
  destruct (N.eqb_spec c 10) as [->|?]; [by apply scanstring_short|].
  destruct (N.eqb_spec c 13) as [->|?]; [by apply scanstring_short|].
  destruct (N.eqb_spec c 9) as [->|?]; [by apply scanstring_short|].
  destruct (N.eqb_spec c 8) as [->|?]; [by apply scanstring_short|].
  destruct (N.eqb_spec c 12) as [->|?]; [by apply scanstring_short|].
  destruct (N.leb_spec 32 c); cbn [andb].
  { destruct (N.leb_spec c 126); [by apply scanstring_plain|].
    destruct (N.ltb_spec c 65536).
    - destruct (escape_u_bound c) as (a & b & c' & d & -> & Hd); [done|].
      apply (scanstring_u _ _ _ _ _ _ Hd).
      unfold is_high_surrogate. apply andb_false_iff.
      destruct (N.leb_spec 55296 c); [right|by left]. apply N.leb_gt. lia.
    - destruct (surrogate_pair c) as (Hh & Hl & Heq); [lia|].
      cbn zeta in Hh, Hl, Heq. cbn zeta.
      set (s1 := N.lor 55296 _) in *. set (s2 := N.lor 56320 _) in *.
      destruct (escape_u_bound s1) as (a & b & c1 & d & -> & Hd).
      { unfold is_high_surrogate in Hh.
        apply andb_true_iff in Hh as [_ ?%N.leb_le]. lia. }
      destruct (escape_u_bound s2) as (a' & b' & c' & d' & -> & Hd').
      { unfold is_low_surrogate in Hl.
        apply andb_true_iff in Hl as [_ ?%N.leb_le]. lia. }
      cbn [app]. rewrite (scanstring_pair _ _ _ _ _ _ _ _ _ _ _ Hd Hh Hd' Hl).
      by rewrite Heq. }
  destruct (N.ltb_spec c 65536); [|lia].
  destruct (escape_u_bound c) as (a & b & c' & d & -> & Hd); [done|].
  apply (scanstring_u _ _ _ _ _ _ Hd).
  unfold is_high_surrogate. apply andb_false_iff. left. apply N.leb_gt. lia.
Qed.

(** [scanstring] inverts [encode_basestring_ascii] on Unicode texts. *)
Lemma scanstring_encode s rest :
  Forall scalar s →
  scanstring (concat (escape_char <$> s) ++ 34%N :: rest) = Some (s, rest).
Proof.
  induction 1 as [|c s Hc _ IH]; [done|].
  cbn [fmap list_fmap concat]. rewrite <-app_assoc.
  by rewrite scanstring_escape_char, IH.
Qed.

(** *** The scanner, one step at a time *)

Lemma scan_once_string f s :
  scan_once (S f) (34%N :: s) = '(str, rest) ← scanstring s; Some (JStr str, rest).
Proof. reflexivity. Qed.

Lemma scan_once_array f s :
  scan_once (S f) (91%N :: s) =
    match skip_ws s with
    | c1 :: s1 => if (c1 =? 93)%N then Some (JList [], s1) else JSONArray f (c1 :: s1) []
    | [] => None
    end.
Proof. reflexivity. Qed.

Lemma scan_once_object f s :
  scan_once (S f) (123%N :: s) =
    match skip_ws s with
    | c1 :: s1 => if (c1 =? 125)%N then Some (JDict [], s1) else JSONObject f (c1 :: s1) []
    | [] => None
    end.
Proof. reflexivity. Qed.

Lemma scan_once_null f rest : scan_once (S f) (txt "null" ++ rest) = Some (JNull, rest).
Proof. reflexivity. Qed.

Lemma scan_once_true f rest : scan_once (S f) (txt "true" ++ rest) = Some (JBool true, rest).
Proof. reflexivity. Qed.

Lemma scan_once_false f rest : scan_once (S f) (txt "false" ++ rest) = Some (JBool false, rest).
Proof. reflexivity. Qed.

Lemma scan_once_number f c s :
  c = 45%N ∨ is_digit c → scan_once (S f) (c :: s) = scan_number (c :: s).
Proof.
  intros [->|Hc%is_digit_cases]; [done|].
  repeat (apply elem_of_cons in Hc as [->|Hc]; [done|]).
  by apply elem_of_nil in Hc.
Qed.

Lemma JSONArray_step f s acc :
  JSONArray (S f) s acc =
    '(v, rest) ← scan_once f s;
    match skip_ws rest with
    | c :: rest' =>
        if (c =? 93)%N then Some (JList (acc ++ [v]), rest')
        else if (c =? 44)%N then JSONArray f (skip_ws rest') (acc ++ [v])
        else None
    | [] => None
    end.
Proof. reflexivity. Qed.

Lemma JSONObject_step f s acc :
  JSONObject (S f) (34%N :: s) acc =
    '(key, rest) ← scanstring s;
    match skip_ws rest with
    | c1 :: rest1 =>
        if (c1 =? 58)%N then
          '(v, rest2) ← scan_once f (skip_ws rest1);
          match skip_ws rest2 with
          | c2 :: rest3 =>
              if (c2 =? 125)%N then
                Some (JDict (dict_of_pairs (acc ++ [(key, v)])), rest3)
              else if (c2 =? 44)%N then
                JSONObject f (skip_ws rest3) (acc ++ [(key, v)])
              else None
          | [] => None
          end
        else None
    | [] => None
    end.
Proof. reflexivity. Qed.

Lemma skip_ws_head c s : is_json_ws c = false → skip_ws (c :: s) = c :: s.
Proof. intros H. cbn [skip_ws]. by rewrite H. Qed.

(** *** Numbers *)

(** [pretty] writes no leading zero. *)
Lemma pretty_N_go_head n s :
  (0 < n)%N → ∃ c l, txt (pretty_N_go n s) = c :: l ∧ c ≠ 48%N.
Proof.
  revert s. induction (N.lt_wf_0 n) as [n _ IH]; intros s Hn.
  rewrite pretty_N_go_step by done.
  destruct (decide (n `div` 10 = 0)%N) as [Hq|Hq].
  - rewrite Hq, pretty_N_go_0, txt_cons. do 2 eexists. split; [done|].
    pose proof (N.div_mod n 10 ltac:(done)) as Hdm.
    pose proof (N.mod_lt n 10 ltac:(done)) as Hlt.
    rewrite Hq in Hdm. set (r := (n `mod` 10)%N) in *. clearbody r.
    assert (r = n) as -> by lia.
    assert (n = 1 ∨ n = 2 ∨ n = 3 ∨ n = 4 ∨ n = 5 ∨ n = 6 ∨ n = 7 ∨ n = 8
            ∨ n = 9)%N as Hc by lia.
    destruct Hc as [->|[->|[->|[->|[->|[->|[->|[->| ->]]]]]]]]; done.
  - apply IH; [apply N.div_lt; lia|by apply N.neq_0_lt_0].
Qed.

Lemma pretty_Z_no_leading_zero (z : Z) c l :
  txt (pretty z) = (if bool_decide (z < 0) then [45%N] else []) ++ c :: l →
  c = 48%N → l = [] ∧ z = 0.
Proof.
  intros Heq ->. destruct z as [|p|p].
  - by injection Heq as <-.
  - exfalso. rewrite bool_decide_false in Heq by lia.
    destruct (pretty_N_go_head (Npos p) EmptyString) as (c & l' & Hc & Hne); [lia|].
    change (pretty (Z.pos p)) with (pretty_N_go (N.pos p) EmptyString) in Heq.
    rewrite Hc in Heq. injection Heq as -> _. done.
  - exfalso. rewrite bool_decide_true in Heq by lia.
    destruct (pretty_N_go_head (Npos p) EmptyString) as (c & l' & Hc & Hne); [lia|].
    change (pretty (Z.neg p)) with ("-" +:+ pretty_N_go (N.pos p) EmptyString) in Heq.
    rewrite txt_app, Hc in Heq. injection Heq as -> _. done.
Qed.

Lemma scan_number_pretty (z : Z) rest :
  ends_number rest →
  scan_number (txt (pretty z) ++ rest) = Some (JInt z, rest).
Proof.
  intros Hrest.
  destruct (pretty_Z_digits z) as (c & l & Heq & Hd & Hv).
  pose proof (pretty_Z_no_leading_zero z c l Heq) as Hzero.
  rewrite Heq. inversion Hd as [|? ? Hc Hl]; subst.
  assert (hd_error rest ≫= digit_val = None) as Hnd.
  { destruct rest as [|r rest]; [done|]. by destruct Hrest as [Hr _]. }
  assert (∀ v : Z, match rest with
            | c' :: _ => if ((c' =? 46) || (c' =? 101) || (c' =? 69))%N then None
                         else Some (JInt v, rest)
            | [] => Some (JInt v, rest)
            end = Some (JInt v, rest)) as Htail.
  { intros v. destruct rest as [|r rest]; [done|].
    destruct Hrest as (_ & H1 & H2 & H3).
    by rewrite (proj2 (N.eqb_neq r 46)), (proj2 (N.eqb_neq r 101)),
      (proj2 (N.eqb_neq r 69)). }
  assert ((c =? 45)%N = false) as Hc45.
  { apply N.eqb_neq. unfold is_digit in Hc. lia. }
  assert ((if (c =? 48)%N then (0, l ++ rest) else scan_int_digits (Z.of_N c - 48) (l ++ rest))
          = (Z.abs z, rest)) as Hscan.
  { destruct (N.eqb_spec c 48) as [Hc48|Hc48].
    - destruct (Hzero Hc48) as [-> ->]. done.
    - rewrite scan_int_digits_digits by done. by rewrite <-dval_first, Hv. }
  unfold scan_number. case_bool_decide as Hz; cbn [app].
  - change (45 =? 45)%N with true. cbn match.
    rewrite (digit_val_digit c Hc), Hscan, Htail. do 3 f_equal. lia.
  - rewrite Hc45, (digit_val_digit c Hc), Hscan, Htail. do 3 f_equal. lia.
Qed.

(** *** Values *)

(** A JSON text starts with a character that is neither white space nor
    a closing bracket. *)
Lemma json_dumps_head v :
  ∃ c s, json_dumps v = c :: s ∧ is_json_ws c = false ∧
         (c =? 93)%N = false ∧ (c =? 125)%N = false.
Proof.
  destruct v as [ |[]|z|s|l|kv]; cbn [json_dumps]; try (by do 2 eexists).
  destruct (pretty_Z_digits z) as (c & l & -> & Hd & _).
  inversion Hd as [|? ? Hc%is_digit_cases _]; subst.
  case_bool_decide; [by do 2 eexists|].
  exists c, l. split; [done|].
  repeat (apply elem_of_cons in Hc as [->|Hc]; [done|]).
  by apply elem_of_nil in Hc.
Qed.

Lemma skip_ws_json_dumps v rest : skip_ws (json_dumps v ++ rest) = json_dumps v ++ rest.
Proof.
  destruct (json_dumps_head v) as (c & s & -> & Hc & _). by apply skip_ws_head.
Qed.

Lemma join_cons_cons sep p q parts :
  join sep (p :: q :: parts) = p ++ sep ++ join sep (q :: parts).
Proof. reflexivity. Qed.

(** The elements of a list, from the first one to the closing bracket. *)
Lemma JSONArray_elements (l : list json) :
  Forall (λ v, ∀ fuel rest, (json_size v ≤ fuel)%nat → ends_number rest →
               scan_once fuel (json_dumps v ++ rest) = Some (v, rest)) l →
  l ≠ [] →
  ∀ fuel acc rest,
    (foldr (λ x n, S (json_size x + n)) 0 l ≤ fuel)%nat →
    JSONArray fuel (join (txt ", ") (json_dumps <$> l) ++ 93%N :: rest) acc
    = Some (JList (acc ++ l), rest).
Proof.
  induction 1 as [|v l Hv Hl IH]; [done|]. intros _ fuel acc rest Hfuel.
  cbn [foldr] in Hfuel. destruct fuel as [|f]; [lia|].
  rewrite JSONArray_step. destruct l as [|v' l].
  - cbn [fmap list_fmap join].
    rewrite Hv by (done || lia). cbn [mbind option_bind].
    by rewrite skip_ws_head.
  - change (json_dumps <$> v :: v' :: l)
      with (json_dumps v :: json_dumps v' :: (json_dumps <$> l)).
    rewrite join_cons_cons, <-!app_assoc.
    rewrite Hv by (done || lia). cbn [mbind option_bind].
    change (txt ", " ++ ?x) with (44%N :: 32%N :: x).
    rewrite skip_ws_head by done.
    change (44 =? 93)%N with false. change (44 =? 44)%N with true. cbn match.
    change (skip_ws (32%N :: ?x)) with (skip_ws x).
    change (json_dumps v' :: (json_dumps <$> l)) with (json_dumps <$> v' :: l).
    destruct (json_dumps_head v') as (c & s & Hhead & Hc & _).
    assert (skip_ws (join (txt ", ") (json_dumps <$> v' :: l) ++ 93%N :: rest)
            = join (txt ", ") (json_dumps <$> v' :: l) ++ 93%N :: rest) as ->.
    { cbn [fmap list_fmap]. rewrite Hhead.
      destruct l; cbn [join app list_fmap]; by apply skip_ws_head. }
    rewrite IH by (done || lia). by rewrite <-app_assoc.
Qed.

Lemma dict_set_fresh d k v : k ∉ d.*1 → dict_set d k v = d ++ [(k, v)].
Proof.
  induction d as [|[k' v'] d IH]; [done|]. cbn [fmap list_fmap fst].
  rewrite not_elem_of_cons. intros [Hne Hk]. cbn [dict_set app].
  rewrite decide_False by done. by rewrite IH.
Qed.

Lemma dict_of_pairs_NoDup kv : NoDup kv.*1 → dict_of_pairs kv = kv.
Proof.
  unfold dict_of_pairs.
  enough (∀ d, NoDup ((d ++ kv).*1) →
               foldl (λ d b, dict_set d (fst b) (snd b)) d kv = d ++ kv)
    as H by (intros; by apply (H [])).
  induction kv as [|[k v] kv IH]; intros d Hnd; [by rewrite app_nil_r|].
  cbn [foldl fst snd]. rewrite dict_set_fresh.
  - rewrite IH; rewrite <-app_assoc; done.
  - rewrite fmap_app in Hnd. apply NoDup_app in Hnd as (_ & Hd & _).
    intros Hk. apply (Hd k Hk). left.
Qed.

(** The members of a dictionary, from the first key to the closing brace. *)
Lemma JSONObject_members (kv : list (list N * json)) :
  Forall (λ b, ∀ fuel rest, (json_size (snd b) ≤ fuel)%nat → ends_number rest →
               scan_once fuel (json_dumps (snd b) ++ rest) = Some (snd b, rest)) kv →
  Forall (λ b, Forall scalar (fst b)) kv →
  kv ≠ [] →
  ∀ fuel acc rest,
    (foldr (λ b n, S (json_size (snd b) + n)) 0 kv ≤ fuel)%nat →
    JSONObject fuel
      (join (txt ", ")
         ((λ b, encode_basestring_ascii (fst b) ++ txt ": " ++ json_dumps (snd b)) <$> kv)
       ++ 125%N :: rest) acc
    = Some (JDict (dict_of_pairs (acc ++ kv)), rest).
Proof.
  induction 1 as [|[k v] kv Hv Hkv IH]; [done|].
  intros Hkeys _ fuel acc rest Hfuel.
  apply Forall_cons in Hkeys as [Hk Hkeys]. cbn [fst snd] in Hv, Hk.
  cbn [foldr snd] in Hfuel. destruct fuel as [|f]; [lia|].
  assert (∀ tail, ends_number tail →
    JSONObject (S f) (encode_basestring_ascii k ++ txt ": " ++ json_dumps v ++ tail) acc
    = match skip_ws tail with
      | c2 :: rest3 =>
          if (c2 =? 125)%N then Some (JDict (dict_of_pairs (acc ++ [(k, v)])), rest3)
          else if (c2 =? 44)%N then JSONObject f (skip_ws rest3) (acc ++ [(k, v)])
          else None
      | [] => None
      end) as Hmember.
  { intros tail Htail. unfold encode_basestring_ascii.
    rewrite <-!app_assoc. cbn [app]. rewrite JSONObject_step.
    rewrite scanstring_encode by done. cbn [mbind option_bind].
    change (txt ": " ++ ?x) with (58%N :: 32%N :: x).
    rewrite skip_ws_head by done. change (58 =? 58)%N with true. cbn match.
    change (skip_ws (32%N :: ?x)) with (skip_ws x).
    rewrite skip_ws_json_dumps, Hv by (done || lia). done. }
  destruct kv as [|[k' v'] kv].
  - cbn [fmap list_fmap join fst snd]. rewrite <-!app_assoc.
    rewrite (Hmember (125%N :: rest)) by done. by rewrite skip_ws_head.
  - cbn [fmap list_fmap fst snd]. rewrite join_cons_cons, <-!app_assoc.
    erewrite Hmember by done.
    change (txt ", " ++ ?x) with (44%N :: 32%N :: x).
    rewrite skip_ws_head by done.
    change (44 =? 125)%N with false. change (44 =? 44)%N with true. cbn match.
    change (skip_ws (32%N :: ?x)) with (skip_ws x).
    set (members := (encode_basestring_ascii k' ++ txt ": " ++ json_dumps v') :: _).
    assert (skip_ws (join (txt ", ") members ++ 125%N :: rest)
            = join (txt ", ") members ++ 125%N :: rest) as ->.
    { subst members. destruct kv; cbn [join app list_fmap]; by apply skip_ws_head. }
    subst members.
    change ((encode_basestring_ascii k' ++ txt ": " ++ json_dumps v') :: ?x)
      with ((λ b, encode_basestring_ascii (fst b) ++ txt ": " ++ json_dumps (snd b))
              <$> (k', v') :: kv).
    rewrite IH by (done || lia). by rewrite <-app_assoc.
Qed.

(** The scanner reads a JSON text of Unicode texts back as the object it
    was written from, given a call depth that covers the object. *)
Lemma scan_once_dumps v :
  wf_json v →
  ∀ fuel rest, (json_size v ≤ fuel)%nat → ends_number rest →
  scan_once fuel (json_dumps v ++ rest) = Some (v, rest).
Proof.
  induction v as [ |b|z|s|l IH|kv IH] using json_ind;
    intros Hwf fuel rest Hfuel Hrest;
    (destruct fuel as [|f]; [cbn in Hfuel; lia|]); cbn [json_dumps].
  - apply scan_once_null.
  - destruct b; [apply scan_once_true|apply scan_once_false].
  - assert (∃ c s, txt (pretty z) = c :: s ∧ (c = 45%N ∨ is_digit c))
      as (c & s & Hs & Hc).
    { destruct (pretty_Z_digits z) as (c & l & -> & Hd & _).
      inversion Hd; subst. case_bool_decide; do 2 eexists; eauto. }
    pose proof (scan_number_pretty z rest Hrest) as Hnum.
    rewrite Hs in Hnum |- *. cbn [app] in Hnum |- *.
    by rewrite scan_once_number.
  - inversion Hwf; subst. unfold encode_basestring_ascii.
    rewrite <-!app_assoc. cbn [app].
    rewrite scan_once_string, scanstring_encode by done. done.
  - inversion Hwf as [ | | | |? Hl| ]; subst.
    rewrite <-!app_assoc. change (txt "[" ++ ?x) with (91%N :: x).
    change (txt "]" ++ rest) with (93%N :: rest).
    rewrite scan_once_array. destruct l as [|v l]; [done|].
    destruct (json_dumps_head v) as (c & s & Hhead & Hc & Hc93 & _).
    assert (∃ s', join (txt ", ") (json_dumps <$> v :: l) ++ 93%N :: rest = c :: s')
      as [s' Hs'].
    { cbn [fmap list_fmap]. rewrite Hhead. destruct l; cbn; eauto. }
    rewrite Hs', skip_ws_head, Hc93, <-Hs' by done.
    apply (JSONArray_elements (v :: l)); [|done|cbn [json_size] in Hfuel; lia].
    apply Forall_forall. intros x Hx.
    rewrite Forall_forall in IH, Hl. by apply IH, Hl.
  - inversion Hwf as [ | | | | |? Hnd Hkv]; subst.
    rewrite <-!app_assoc. change (txt "{" ++ ?x) with (123%N :: x).
    change (txt "}" ++ rest) with (125%N :: rest).
    rewrite scan_once_object. destruct kv as [|[k v] kv]; [done|].
    set (members := _ <$> _).
    assert (∃ s', join (txt ", ") members ++ 125%N :: rest = 34%N :: s')
      as [s' Hs'].
    { subst members. cbn [fmap list_fmap]. destruct kv; cbn; eauto. }
    rewrite Hs', skip_ws_head by done. change (34 =? 125)%N with false.
    cbn match. rewrite <-Hs'. subst members.
    rewrite (JSONObject_members ((k, v) :: kv)).
    + cbn [app]. by rewrite dict_of_pairs_NoDup.
    + apply Forall_forall. intros x Hx.
      rewrite Forall_forall in IH, Hkv. by apply IH, Hkv.
    + eapply Forall_impl; [exact Hkv|]. by intros ? [? _].
    + done.
    + cbn [json_size] in Hfuel. lia.
Qed.

Lemma length_join_members {A} (size : A → nat) (text : A → list N) (l : list A) :
  Forall (λ x, (size x ≤ length (text x))%nat) l →
  (foldr (λ x n, S (size x + n)) 0 l ≤ S (length (join (txt ", ") (text <$> l))))%nat.
Proof.
  induction 1 as [|x l Hx Hl IH]; [cbn; lia|].
  destruct l as [|y l].
  - cbn. lia.
  - change (text <$> x :: y :: l) with (text x :: text y :: (text <$> l)).
    change (text <$> y :: l) with (text y :: (text <$> l)) in IH.
    rewrite join_cons_cons, !length_app. cbn [foldr] in IH |- *.
    change (length (txt ", ")) with 2%nat. lia.
Qed.

(** The text of an object is at least as long as decoding it is deep. *)
Lemma json_size_length v : (json_size v ≤ length (json_dumps v))%nat.
Proof.
  induction v as [ |b|z|s|l IH|kv IH] using json_ind; cbn [json_size json_dumps].
  - cbn. lia.
  - destruct b; cbn; lia.
  - destruct (pretty_Z_digits z) as (c & l & -> & _).
    rewrite length_app. cbn. lia.
  - unfold encode_basestring_ascii. rewrite !length_app. cbn. lia.
  - rewrite !length_app.
    pose proof (length_join_members json_size json_dumps l IH).
    change (length (txt "[")) with 1%nat. change (length (txt "]")) with 1%nat.
    lia.
  - rewrite !length_app.
    pose proof (length_join_members (λ b, json_size (snd b))
      (λ b, encode_basestring_ascii (fst b) ++ txt ": " ++ json_dumps (snd b)) kv) as H.
    change (length (txt "{")) with 1%nat. change (length (txt "}")) with 1%nat.
    cbn beta in H. etrans; [apply le_n_S, H|lia].
    eapply Forall_impl; [exact IH|]. intros [k x] Hx. cbn [fst snd] in *.
    rewrite !length_app. lia.
Qed.

(** [json.loads(json.dumps(v)) == v], also with white space after the
    text, as for a line of a file. *)
Lemma json_loads_dumps v trail :
  wf_json v → skip_ws trail = [] → ends_number trail →
  json_loads (json_dumps v ++ trail) = Some v.
Proof.
  intros Hwf Htrail Hend. unfold json_loads.
  rewrite skip_ws_json_dumps, scan_once_dumps; try done.
  - cbn [mbind option_bind]. by rewrite Htrail.
  - pose proof (json_size_length v). rewrite length_app. lia.
Qed.

(** The hypothesis on the texts is needed: a high surrogate directly
    followed by a low surrogate, two code points that no decoded UTF-8
    text holds, is written as two escapes and read back as one
    character. *)
Example surrogate_halves_merge :
  json_loads (json_dumps (JStr [55357; 56832]%N)) = Some (JStr [128512%N]).
Proof. reflexivity. Qed.

(** ** Serializer *)

Lemma foldl_write_row buf rows :
  foldl write_row buf rows = buf ++ concat (record_line <$> rows).
Proof.
  revert buf. induction rows as [|row rows IH]; intros buf.
  - by rewrite app_nil_r.
  - cbn [foldl fmap list_fmap concat]. rewrite IH. unfold write_row, record_line.
    by rewrite <-app_assoc.
Qed.

(** What the serializer does on a path that names nothing yet. *)
Lemma create_jsonl_fresh (fs : filesystem) file_name (df : DataFrame) :
  fs !! (file_name ++ txt ".jsonl") = None →
  create_jsonl_from_list fs file_name df =
    Ok (<[file_name ++ txt ".jsonl" := File (concat (record_line <$> values df))]> fs).
Proof.
  intros Hnone. unfold create_jsonl_from_list, isfile. rewrite Hnone. cbn [negb].
  by rewrite foldl_write_row.
Qed.

Lemma readlines_from_printable cur line rest :
  Forall printable line →
  readlines_from cur (line ++ 10%N :: rest)
  = (cur ++ line ++ [10%N]) :: readlines_from [] rest.
Proof.
  intros Hline. revert cur. induction Hline as [|c line Hc _ IH]; intros cur.
  - done.
  - cbn [app readlines_from]. unfold printable in Hc.
    rewrite (proj2 (N.eqb_neq c 10)), (proj2 (N.eqb_neq c 13)) by lia.
    rewrite IH. by rewrite <-app_assoc.
Qed.

Lemma readlines_concat (lines : list (list N)) :
  Forall (Forall printable) lines →
  readlines (concat ((λ l, l ++ [10%N]) <$> lines)) = (λ l, l ++ [10%N]) <$> lines.
Proof.
  unfold readlines. induction 1 as [|line lines Hline _ IH]; [done|].
  cbn [fmap list_fmap concat]. rewrite <-app_assoc. cbn [app].
  by rewrite readlines_from_printable, IH.
Qed.

Lemma readlines_records (rows : list NormalizedExample) :
  readlines (concat (record_line <$> rows)) = record_line <$> rows.
Proof.
  pose proof (readlines_concat ((λ row, json_dumps (row_record row)) <$> rows)) as H.
  rewrite <-!list_fmap_compose in H. apply H.
  apply Forall_fmap, Forall_forall. intros row _. apply json_dumps_printable.
Qed.

Lemma wf_to_json v : text_val v → wf_json (to_json v).
Proof. destruct v; [constructor|done|by constructor]. Qed.

Lemma scalar_txt_check (s : string) :
  forallb (λ c, (c <? 128)%N) (txt s) = true → Forall scalar (txt s).
Proof.
  intros H. apply Forall_forall. intros c Hc%list_elem_of_In.
  rewrite forallb_forall in H. specialize (H c Hc).
  apply N.ltb_lt in H. unfold scalar. lia.
Qed.

Lemma wf_row_record row : text_row row → wf_json (row_record row).
Proof.
  intros (Hq & Hrp & Hhn). unfold row_record, create_rerank_ft_data.
  constructor.
  - apply (bool_decide_unpack _). by vm_compute.
  - rewrite !Forall_cons. cbn [fst snd].
    split_and!; try (by apply scalar_txt_check); try apply Forall_nil.
    + by apply wf_to_json.
    + constructor. apply Forall_fmap. eapply Forall_impl; [exact Hrp|].
      apply wf_to_json.
    + constructor. apply Forall_fmap. eapply Forall_impl; [exact Hhn|].
      apply wf_to_json.
    + done.
Qed.

Lemma json_loads_record_line row :
  text_row row → json_loads (record_line row) = Some (row_record row).
Proof.
  intros Hrow. unfold record_line.
  apply json_loads_dumps; [by apply wf_row_record|done|done].
Qed.

Lemma jsonlines_read_records (rows : list NormalizedExample) :
  Forall text_row rows →
  jsonlines_read (concat (record_line <$> rows)) = Some (row_record <$> rows).
Proof.
  intros Hrows. unfold jsonlines_read. rewrite readlines_records.
  apply mapM_Some_2, Forall2_fmap.
  apply Forall_Forall2_diag. eapply Forall_impl; [exact Hrows|].
  apply json_loads_record_line.
Qed.

(** C4. On a fresh destination the serializer writes one JSON object per
    row, each on a line of its own and in the order of the slice, with
    the keys [query], [relevant_passages] and [hard_negatives] and no
    label; reading the file back line by line and decoding every line
    gives the records that were written. *)
Theorem serializer_round_trip (fs : filesystem) (file_name : list N) (df : DataFrame) :
  fs !! (file_name ++ txt ".jsonl") = None →
  Forall text_row (values df) →
  ∃ content,
    create_jsonl_from_list fs file_name df
      = Ok (<[file_name ++ txt ".jsonl" := File content]> fs) ∧
    content = concat (record_line <$> values df) ∧
    readlines content = record_line <$> values df ∧
    Forall (λ row, ∃ q rp hn,
              row_record row =
                JDict [(txt "query", q); (txt "relevant_passages", JList rp);
                       (txt "hard_negatives", JList hn)] ∧
              q = to_json (query row) ∧
              rp = to_json <$> relevant_passages row ∧
              hn = to_json <$> hard_negatives row)
           (values df) ∧
    jsonlines_read content = Some (row_record <$> values df).
Proof.
  intros Hnone Hrows. eexists. split; [by apply create_jsonl_fresh|].
  split_and!.
  - done.
  - apply readlines_records.
  - apply Forall_forall. intros row _. by do 3 eexists.
  - by apply jsonlines_read_records.
Qed.

Lemma scalarb_scalar c : scalarb c = true → scalar c.
Proof.
  unfold scalarb, scalar. rewrite andb_true_iff, negb_true_iff, andb_false_iff.
  rewrite N.ltb_lt, !N.leb_gt. lia.
Qed.

Lemma forallb_Forall {A} (p : A → bool) (P : A → Prop) (l : list A) :
  (∀ x, p x = true → P x) → forallb p l = true → Forall P l.
Proof.
  intros Hp H. apply Forall_forall. intros x Hx%list_elem_of_In.
  rewrite forallb_forall in H. auto.
Qed.

Lemma text_valb_text_val v : text_valb v = true → text_val v.
Proof.
  destruct v as [|z|s]; [done|done|]. apply forallb_Forall, scalarb_scalar.
Qed.

Lemma text_rowb_text_row row : text_rowb row = true → text_row row.
Proof.
  unfold text_rowb, text_row. rewrite !andb_true_iff. intros [[Hq Hrp] Hhn].
  split_and!.
  - by apply text_valb_text_val.
  - eapply forallb_Forall; [apply text_valb_text_val|done].
  - eapply forallb_Forall; [apply text_valb_text_val|done].
Qed.

Lemma serializer_round_trip_witness :
  ∃ content,
    create_jsonl_from_list ∅ (txt "casehold_train") sample_frame
      = Ok (<[txt "casehold_train" ++ txt ".jsonl" := File content]> ∅) ∧
    jsonlines_read content = Some (row_record <$> values sample_frame).
Proof.
  destruct (serializer_round_trip ∅ (txt "casehold_train") sample_frame)
    as (content & Hc & _ & _ & _ & Hr).
  - reflexivity.
  - apply (forallb_Forall text_rowb text_row); [apply text_rowb_text_row|].
    by vm_compute.
  - exists content. split; [exact Hc|exact Hr].
Defined.

(** C5. When the destination is an existing file the serializer does
    nothing: the directory, and so the file, is as before, whatever the
    slice passed in.  In particular a second run on other data leaves
    the file of the first run as it is. *)
Theorem skip_if_exists :
  (∀ (fs : filesystem) (file_name old : list N) (df : DataFrame),
     fs !! (file_name ++ txt ".jsonl") = Some (File old) →
     create_jsonl_from_list fs file_name df = Ok fs) ∧
  (∀ (fs : filesystem) (file_name : list N) (df df' : DataFrame),
     fs !! (file_name ++ txt ".jsonl") = None →
     ∃ fs1,
       create_jsonl_from_list fs file_name df = Ok fs1 ∧
       fs1 !! (file_name ++ txt ".jsonl")
         = Some (File (concat (record_line <$> values df))) ∧
       create_jsonl_from_list fs1 file_name df' = Ok fs1).
Proof.
  assert (∀ (fs : filesystem) (file_name old : list N) (df : DataFrame),
     fs !! (file_name ++ txt ".jsonl") = Some (File old) →
     create_jsonl_from_list fs file_name df = Ok fs) as Hskip.
  { intros fs file_name old df Hold.
    unfold create_jsonl_from_list, isfile. by rewrite Hold. }
  split; [exact Hskip|].
  intros fs file_name df df' Hnone. eexists.
  split; [by apply create_jsonl_fresh|].
  split; [by rewrite lookup_insert_eq|].
  eapply Hskip. by rewrite lookup_insert_eq.
Qed.

Lemma skip_if_exists_witness :
  create_jsonl_from_list old_directory (txt "casehold_train") sample_frame
    = Ok old_directory ∧
  ∃ fs1,
    create_jsonl_from_list ∅ (txt "casehold_train") sample_frame = Ok fs1 ∧
    create_jsonl_from_list fs1 (txt "casehold_train") other_frame = Ok fs1.
Proof.
  destruct skip_if_exists as [Hskip Hsecond]. split.
  - apply (Hskip old_directory (txt "casehold_train") (txt "{}") sample_frame).
    reflexivity.
  - destruct (Hsecond ∅ (txt "casehold_train") sample_frame other_frame)
      as (fs1 & H1 & _ & H2).
    + reflexivity.
    + exists fs1. split; [exact H1|exact H2].
Defined.

Lemma filter_LF_printable (l : list N) :
  Forall printable l → filter (λ c, c = 10%N) l = [].
Proof.
  induction 1 as [|c l Hc _ IH]; [done|].
  rewrite filter_cons_False; [done|]. unfold printable in Hc. lia.
Qed.

Lemma filter_LF_records (rows : list NormalizedExample) :
  length (filter (λ c, c = 10%N) (concat (record_line <$> rows))) = length rows.
Proof.
  induction rows as [|row rows IH]; [done|].
  cbn [fmap list_fmap concat length]. unfold record_line at 1.
  rewrite !filter_app, filter_LF_printable by apply json_dumps_printable.
  rewrite filter_cons_True by done. rewrite filter_nil. cbn [app length].
  by rewrite IH.
Qed.

(** C10. The file written to a fresh destination has as many lines as
    the slice has rows, whatever the texts hold: its only characters
    outside printable ASCII are the line feeds that end the records, one
    per row. *)
Theorem one_line_per_record (fs : filesystem) (file_name : list N) (df : DataFrame) :
  fs !! (file_name ++ txt ".jsonl") = None →
  ∃ content,
    create_jsonl_from_list fs file_name df
      = Ok (<[file_name ++ txt ".jsonl" := File content]> fs) ∧
    length (readlines content) = length df ∧
    length (filter (λ c, c = 10%N) content) = length df ∧
    Forall (λ c, c = 10%N ∨ printable c) content.
Proof.
  intros Hnone. eexists. split; [by apply create_jsonl_fresh|].
  assert (length (values df) = length df) as Hlen.
  { unfold values. apply length_fmap. }
  split_and!.
  - by rewrite readlines_records, length_fmap.
  - by rewrite filter_LF_records.
  - apply Forall_concat, Forall_fmap, Forall_forall. intros row _.
    unfold compose, record_line. rewrite Forall_app. split.
    + eapply Forall_impl; [apply json_dumps_printable|]. auto.
    + repeat constructor.
Qed.

Lemma one_line_per_record_witness :
  ∃ content,
    create_jsonl_from_list ∅ (txt "casehold_train") sample_frame
      = Ok (<[txt "casehold_train" ++ txt ".jsonl" := File content]> ∅) ∧
    length (readlines content) = length sample_frame.
Proof.
  destruct (one_line_per_record ∅ (txt "casehold_train") sample_frame)
    as (content & Hc & Hl & _).
  - reflexivity.
  - exists content. split; [exact Hc|exact Hl].
Defined.

(** ** Evaluator *)

Lemma py_sum_foldl acc bs :
  foldl (λ acc (b : bool), acc + (if b then 1 else 0)) acc bs = acc + py_sum bs.
Proof.
  unfold py_sum. revert acc. induction bs as [|b bs IH]; intros acc; [cbn; lia|].
  cbn [foldl]. rewrite IH, (IH (0 + _)). lia.
Qed.

Lemma py_sum_cons b bs : py_sum (b :: bs) = (if b then 1 else 0) + py_sum bs.
Proof. unfold py_sum at 1. cbn [foldl]. by rewrite py_sum_foldl. Qed.

(** The sum of the comparison is the number of matching rows. *)
Lemma py_sum_matches (predictions : Series Z) (df : DataFrame) :
  py_sum (series_eq predictions (column label df)) = Z.of_nat (matches predictions df).
Proof.
  unfold matches, series_eq, column.
  revert df. induction predictions as [|p ps IH]; intros [|r df]; try done.
  cbn [fmap list_fmap zip_with]. rewrite py_sum_cons, IH.
  fold (zip ps df). unfold zip. cbn [zip_with].
  rewrite filter_cons. destruct r as [i row]. cbn [prod_map fst snd id].
  case_bool_decide; case_decide; try done; cbn [length]; lia.
Qed.

Lemma matches_le (predictions : Series Z) (df : DataFrame) :
  (matches predictions df ≤ length df)%nat.
Proof.
  unfold matches. etrans; [apply length_filter|].
  rewrite length_zip_with. lia.
Qed.

Lemma accuracy_value (predictions : Series Z) (df : DataFrame) :
  df ≠ [] →
  accuracy predictions df
  = Ok (Z.of_nat (matches predictions df) # Pos.of_nat (length df)).
Proof.
  intros Hne. unfold accuracy. rewrite py_sum_matches.
  destruct df as [|r df]; [done|]. cbn [length].
  unfold py_truediv.
  change (Z.of_nat (S (length df))) with (Z.pos (Pos.of_succ_nat (length df))).
  by rewrite Pos.of_nat_succ.
Qed.

Lemma matches_all (predictions : Series Z) (df : DataFrame) :
  Forall2 (λ p r, snd p = label (snd r)) predictions df →
  matches predictions df = length df.
Proof.
  unfold matches. induction 1 as [|p r ps df' Hpr _ IH]; [done|].
  cbn [zip zip_with]. rewrite filter_cons_True by done. cbn [length].
  by f_equal.
Qed.

Lemma matches_none (predictions : Series Z) (df : DataFrame) :
  Forall2 (λ p r, snd p ≠ label (snd r)) predictions df →
  matches predictions df = 0%nat.
Proof.
  unfold matches. induction 1 as [|p r ps df' Hpr _ IH]; [done|].
  cbn [zip zip_with]. by rewrite filter_cons_False.
Qed.

(** C6. On a test set that is not empty the accuracy is a number between
    0 and 1; it is 1 when every prediction equals the label and 0 when
    none does. *)
Theorem accuracy_bounds (predictions : Series Z) (df : DataFrame) :
  df ≠ [] →
  ∃ acc : Q,
    accuracy predictions df = Ok acc ∧
    (0 <= acc)%Q ∧ (acc <= 1)%Q ∧
    (Forall2 (λ p r, snd p = label (snd r)) predictions df → (acc == 1)%Q) ∧
    (Forall2 (λ p r, snd p ≠ label (snd r)) predictions df → (acc == 0)%Q).
Proof.
  intros Hne. eexists. split; [by apply accuracy_value|].
  pose proof (matches_le predictions df) as Hle.
  assert (0 < length df)%nat as Hpos by (destruct df; [done|cbn; lia]).
  assert (Z.pos (Pos.of_nat (length df)) = Z.of_nat (length df)) as Hden.
  { rewrite <-positive_nat_Z, Nat2Pos.id; lia. }
  unfold Qle, Qeq. cbn [Qnum Qden]. rewrite Hden. split_and!.
  - lia.
  - lia.
  - intros Hall. rewrite (matches_all _ _ Hall). lia.
  - intros Hnone. rewrite (matches_none _ _ Hnone). lia.
Qed.

Lemma sample_frame_rows : sample_frame = [(0%nat, sample_normalized); (1%nat, multiline_row)].
Proof. reflexivity. Qed.

Lemma accuracy_bounds_witness :
  ∃ acc : Q,
    accuracy sample_predictions sample_frame = Ok acc ∧ (0 <= acc)%Q ∧ (acc <= 1)%Q.
Proof.
  destruct (accuracy_bounds sample_predictions sample_frame)
    as (acc & Hacc & H0 & H1 & _).
  - rewrite sample_frame_rows. discriminate.
  - exists acc. split; [exact Hacc|]. split; [exact H0|exact H1].
Defined.

(** The sample run of the notebook: 6 and 8 matches on 10 rows. *)
Example accuracy_six_of_ten : (py_truediv 6 10 = Ok (6 # 10)) ∧ (6 # 10 == 0.6)%Q.
Proof. split; reflexivity. Qed.

Example accuracy_eight_of_ten : (py_truediv 8 10 = Ok (8 # 10)) ∧ (8 # 10 == 0.8)%Q.
Proof. split; reflexivity. Qed.

Section EvaluatorProperties.
Context {world : Type}.
Variable co_rerank : RerankRequest → world → result RerankResponse * world.

(** One call of [get_prediction]: one request, and the index of the
    first result of the answer. *)
Lemma get_prediction_run item model w log :
  get_prediction co_rerank item model (w, log) =
    (match (co_rerank (request_of model item) w).1 with
     | Ok resp =>
         match results resp with
         | top :: _ => Ok (index top)
         | [] => Raise IndexError
         end
     | Raise e => Raise e
     end,
     ((co_rerank (request_of model item) w).2, log ++ [request_of model item])).
Proof.
  unfold get_prediction, client_bind, rerank, request_of. cbn [fst snd].
  destruct (co_rerank _ w) as [[resp|e] w']; [|done].
  cbn [fst snd]. by destruct (results resp).
Qed.

Lemma df_apply_cons model i row df σ :
  df_apply (λ item, get_prediction co_rerank item model) ((i, row) :: df) σ =
    match get_prediction co_rerank row model σ with
    | (Ok b, σ1) =>
        match df_apply (λ item, get_prediction co_rerank item model) df σ1 with
        | (Ok bs, σ2) => (Ok ((i, b) :: bs), σ2)
        | (Raise e, σ2) => (Raise e, σ2)
        end
    | (Raise e, σ1) => (Raise e, σ1)
    end.
Proof.
  cbn [df_apply]. unfold client_bind at 1.
  destruct (get_prediction co_rerank row model σ) as [[b|e] σ1]; [|done].
  unfold client_bind, client_ret.
  by destruct (df_apply _ df σ1) as [[bs|e] σ2].
Qed.

(** A completed pass over the rows has sent one request per row, in
    the order of the rows, and predicts for each row the index of the
    top result of its answer. *)
Lemma df_apply_ok model df w log preds σ' :
  df_apply (λ item, get_prediction co_rerank item model) df (w, log) = (Ok preds, σ') →
  σ'.2 = log ++ requests model df ∧
  row_labels preds = row_labels df ∧
  Forall2 top_index preds (answers co_rerank (requests model df) w).
Proof.
  revert w log preds σ'. induction df as [|[i row] df IH]; intros w log preds σ'.
  - intros [= <- <-]. cbn. by rewrite app_nil_r.
  - rewrite df_apply_cons, get_prediction_run.
    unfold requests. cbn [values fmap list_fmap snd answers].
    destruct (co_rerank (request_of model row) w) as [[resp|e] w1]; [|done].
    cbn [fst snd]. destruct (results resp) as [|top rest] eqn:Hres; [done|].
    destruct (df_apply _ df _) as [[bs|e] σ2] eqn:Hrest; [|done].
    intros [= <- <-]. apply IH in Hrest as (Hlog & Hlab & Htop).
    split_and!.
    + rewrite Hlog, <-app_assoc. done.
    + cbn [row_labels fmap list_fmap fst] in *. by f_equal.
    + constructor; [|done]. by exists resp, top, rest.
Qed.

(** The documents of a shaped row are the five candidate fields of its
    record, in the order of [all_labels]. *)
Lemma shape_docs (example : dict) (ne : NormalizedExample) :
  shape example = Ok ne →
  docs ne = get example <$> all_labels ∧ length (docs ne) = 5%nat.
Proof.
  unfold shape, getitem.
  destruct (example !! txt "label") as [lbl|]; [|done]. cbn [mbind result_bind].
  destruct (example !! txt "citing_prompt") as [q|]; [|done].
  cbn [mbind result_bind].
  destruct (py_int lbl) as [l|]; [|done]. cbn [mbind result_bind].
  destruct (example !! (txt "holding_" ++ py_str lbl)) as [rp|]; [|done].
  cbn [mbind result_bind]. intros <-%(inj Ok). by cbn [docs].
Qed.

(** With an endpoint that answers, the pass completes. *)
Lemma df_apply_answering model df σ :
  answering co_rerank →
  ∃ preds σ',
    df_apply (λ item, get_prediction co_rerank item model) df σ = (Ok preds, σ').
Proof.
  intros Hans. revert σ. induction df as [|[i row] df IH]; intros [w log].
  - by do 2 eexists.
  - rewrite df_apply_cons, get_prediction_run.
    destruct (Hans (request_of model row) w) as (resp & w' & -> & Hres).
    cbn [fst snd]. destruct (results resp) as [|top rest]; [done|].
    edestruct IH as (bs & σ2 & ->). by do 2 eexists.
Qed.

(** C7. A completed evaluation has sent exactly one request per test
    row, in the order of the rows, each with the model identifier, the
    query of the row, its five candidates in their order and
    [top_n = 1]; the prediction of a row is the index of the first
    result of the answer to its request; and the accuracy is the number
    of rows whose prediction equals the label over the number of rows.
    On a test set that is not empty, with an endpoint that answers
    every request, the evaluation completes. *)
Theorem evaluate_contract (model : list N) (df_test : DataFrame)
    (w : world) (log : list RerankRequest) :
  (∀ preds acc σ',
     evaluate co_rerank model df_test (w, log) = (Ok (preds, acc), σ') →
     σ'.2 = log ++ requests model df_test ∧
     Forall2 (λ req r, req = {| req_model := model; req_query := query (snd r);
                                req_documents := docs (snd r); req_top_n := 1 |})
       (requests model df_test) df_test ∧
     row_labels preds = row_labels df_test ∧
     Forall2 top_index preds (answers co_rerank (requests model df_test) w) ∧
     acc = Z.of_nat (matches preds df_test) # Pos.of_nat (length df_test)) ∧
  (df_test ≠ [] → answering co_rerank →
   ∃ preds acc σ',
     evaluate co_rerank model df_test (w, log) = (Ok (preds, acc), σ')) ∧
  (∀ (example : dict) (ne : NormalizedExample),
     shape example = Ok ne →
     req_documents (request_of model ne) = get example <$> all_labels ∧
     length (req_documents (request_of model ne)) = 5%nat).
Proof.
  split_and!.
  - intros preds acc σ'. unfold evaluate, client_bind, client_lift, client_ret.
    destruct (df_apply _ df_test _) as [[ps|e] σ1] eqn:Happly; [|done].
    destruct (accuracy ps df_test) as [a|e] eqn:Hacc; [|done].
    intros [= <- <- <-].
    apply df_apply_ok in Happly as (Hlog & Hlab & Htop).
    split_and!; try done.
    + unfold requests, values. rewrite <-list_fmap_compose.
      apply Forall2_fmap_l, Forall_Forall2_diag. by apply Forall_forall.
    + destruct df_test as [|r df]; [done|].
      rewrite accuracy_value in Hacc by done. by injection Hacc.
  - intros Hne Hans. unfold evaluate, client_bind, client_lift, client_ret.
    destruct (df_apply_answering model df_test (w, log) Hans) as (ps & σ1 & ->).
    rewrite accuracy_value by done. by do 3 eexists.
  - intros example ne. apply shape_docs.
Qed.
End EvaluatorProperties.

Lemma sample_rerank_answering : answering sample_rerank.
Proof. intros req n. by do 2 eexists. Qed.

Lemma evaluate_contract_witness :
  ∃ preds acc σ',
    evaluate sample_rerank baseline_model sample_frame (0%nat, []) = (Ok (preds, acc), σ') ∧
    σ'.2 = requests baseline_model sample_frame ∧
    acc = Z.of_nat (matches preds sample_frame) # Pos.of_nat (length sample_frame).
Proof.
  destruct (evaluate_contract sample_rerank baseline_model sample_frame 0%nat [])
    as (Hok & Hrun & _).
  destruct Hrun as (preds & acc & σ' & Hev).
  - rewrite sample_frame_rows. discriminate.
  - exact sample_rerank_answering.
  - destruct (Hok preds acc σ' Hev) as (Hlog & _ & _ & _ & Hacc).
    exists preds, acc, σ'. split; [exact Hev|]. split; [exact Hlog|exact Hacc].
Defined.

(** * Further properties of the notebook code *)

(** ** Record shaper: accepted records and what is read *)

(** What a successful run of the loop body has looked up. *)
Lemma shape_Ok_inv (example : dict) (ne : NormalizedExample) :
  shape example = Ok ne →
  ∃ lbl q l rp,
    example !! txt "label" = Some lbl ∧
    example !! txt "citing_prompt" = Some q ∧
    py_int lbl = Ok l ∧
    example !! (txt "holding_" ++ py_str lbl) = Some rp ∧
    ne = {| query := q; docs := get example <$> all_labels; label := l;
            relevant_passages := [rp];
            hard_negatives :=
              get example <$>
                filter (λ x, x ≠ txt "holding_" ++ py_str lbl) all_labels |}.
Proof.
  unfold shape, getitem.
  destruct (example !! txt "label") as [lbl|] eqn:Hlbl; [|done].
  cbn [mbind result_bind].
  destruct (example !! txt "citing_prompt") as [q|] eqn:Hq; [|done].
  cbn [mbind result_bind].
  destruct (py_int lbl) as [l|] eqn:Hint; [|done]. cbn [mbind result_bind].
  destruct (example !! (txt "holding_" ++ py_str lbl)) as [rp|] eqn:Hrp; [|done].
  cbn [mbind result_bind]. intros <-%(inj Ok). by exists lbl, q, l, rp.
Qed.

(** X1. A dataset record is shaped exactly when its label is one of the
    indices 0 to 4, as an integer or as its decimal text, and its query
    and the candidate the label selects are present. *)
Theorem shape_accepts (example : dict) :
  five_candidates example →
  (∃ ne, shape example = Ok ne) ↔
  (∃ i, 0 ≤ i < 5 ∧ label_index example i ∧
        is_Some (example !! txt "citing_prompt") ∧
        is_Some (example !! (txt "holding_" ++ txt (pretty i)))).
Proof.
  intros Hfive. split.
  - intros [ne (lbl & q & l & rp & Hlbl & Hq & Hint & Hrp & _)%shape_Ok_inv].
    destruct (selected_label_index lbl) as (i & Hi & Hform & Hstr & _).
    { apply Hfive. by rewrite Hrp. }
    exists i. split_and!; [lia|lia| |by rewrite Hq|by rewrite <-Hstr, Hrp].
    unfold label_index. rewrite Hlbl. destruct Hform as [-> | ->]; auto.
  - intros (i & Hi & Hl & [q Hq] & [rp Hrp]).
    eexists. by eapply shape_in_range.
Qed.

Lemma shape_accepts_witness :
  (∃ ne, shape sample_example = Ok ne) ↔
  (∃ i, 0 ≤ i < 5 ∧ label_index sample_example i ∧
        is_Some (sample_example !! txt "citing_prompt") ∧
        is_Some (sample_example !! (txt "holding_" ++ txt (pretty i)))).
Proof. apply (shape_accepts sample_example). exact sample_example_five. Defined.

(** X2. Whatever the record holds, a normalized example has five
    documents and one relevant passage.  Either the label selects one of
    the five candidate fields, and then the relevant passage is the
    document at that position and the hard negatives are the other four
    documents in their order; or it selects a field outside the five,
    and then all five documents are hard negatives. *)
Theorem shape_lists (example : dict) (ne : NormalizedExample) :
  shape example = Ok ne →
  length (docs ne) = 5%nat ∧
  length (relevant_passages ne) = 1%nat ∧
  ((∃ i rp, docs ne !! i = Some rp ∧ relevant_passages ne = [rp] ∧
            hard_negatives ne = delete i (docs ne) ∧
            length (hard_negatives ne) = 4%nat) ∨
   hard_negatives ne = docs ne).
Proof.
  intros (lbl & q & l & rp & Hlbl & Hq & Hint & Hrp & ->)%shape_Ok_inv.
  cbn [docs relevant_passages hard_negatives]. split_and!; [done|done|].
  destruct (decide (txt "holding_" ++ py_str lbl ∈ all_labels)) as [Hin|Hout].
  - left. apply list_elem_of_lookup in Hin as [i Hi].
    exists i, rp. split_and!.
    + rewrite list_lookup_fmap, Hi. cbn [fmap option_fmap option_map].
      unfold get. by rewrite Hrp.
    + done.
    + rewrite (filter_ne_delete all_labels i) by auto using all_labels_NoDup.
      apply list_fmap_delete.
    + rewrite (filter_ne_delete all_labels i) by auto using all_labels_NoDup.
      rewrite length_fmap, length_delete by eauto. done.
  - right. f_equal. apply filter_Forall_id, Forall_forall.
    intros x Hx ->. done.
Qed.

Lemma shape_lists_witness :
  length (docs sample_normalized) = 5%nat ∧
  length (relevant_passages sample_normalized) = 1%nat ∧
  ((∃ i rp, docs sample_normalized !! i = Some rp ∧
            relevant_passages sample_normalized = [rp] ∧
            hard_negatives sample_normalized = delete i (docs sample_normalized) ∧
            length (hard_negatives sample_normalized) = 4%nat) ∨
   hard_negatives sample_normalized = docs sample_normalized).
Proof. apply (shape_lists sample_example sample_normalized). by vm_compute. Defined.

(** The second case happens: a record with a sixth candidate field that
    the label selects. *)
Example shape_outside_label :
  ∃ ne, shape extra_field_example = Ok ne ∧
        label ne = 7 ∧ hard_negatives ne = docs ne.
Proof. eexists. split; [by vm_compute|]. by split. Qed.

Lemma get_insert_ne (example : dict) (k k' : list N) (v : pyval) :
  k ≠ k' → get (<[k:=v]> example) k' = get example k'.
Proof. intros Hne. unfold get. by rewrite lookup_insert_ne. Qed.

(** X3. The shaper reads the label, the query and the candidate fields
    only: setting any other field of the record, such as an identifier
    column, changes nothing. *)
Theorem shape_other_field (example : dict) (k : list N) (v : pyval) :
  k ≠ txt "label" → k ≠ txt "citing_prompt" →
  (∀ s, k ≠ txt "holding_" ++ s) →
  shape (<[k:=v]> example) = shape example.
Proof.
  intros Hl Hq Hh. unfold shape, getitem.
  rewrite !lookup_insert_ne by done.
  destruct (example !! txt "label") as [lbl|]; [|done]. cbn [mbind result_bind].
  destruct (example !! txt "citing_prompt") as [q|]; [|done].
  cbn [mbind result_bind].
  destruct (py_int lbl) as [l|]; [|done]. cbn [mbind result_bind].
  rewrite lookup_insert_ne by apply Hh.
  destruct (example !! (txt "holding_" ++ py_str lbl)) as [rp|]; [|done].
  cbn [mbind result_bind]. do 2 f_equal.
  - apply list_fmap_ext. intros _ x (s & -> & _)%list_elem_of_lookup_2%list_elem_of_fmap.
    apply get_insert_ne, Hh.
  - apply list_fmap_ext.
    intros _ x (s & -> & _)%list_elem_of_lookup_2%list_elem_of_filter%proj2%list_elem_of_fmap.
    apply get_insert_ne, Hh.
Qed.

Lemma shape_other_field_witness :
  shape (<[txt "example_id" := PyInt 17]> sample_example) = shape sample_example.
Proof.
  apply (shape_other_field sample_example (txt "example_id") (PyInt 17)).
  - discriminate.
  - discriminate.
  - intros s Hs. discriminate Hs.
Defined.

(** X4. The shaper does not check the values it reads: a record whose
    selected candidate is present with the value [None] is shaped, with
    [None] as its relevant passage, and its record for fine-tuning has a
    null relevant passage. *)
Theorem shape_null_passage (example : dict) (i : Z) (q : pyval) :
  label_index example i → 0 ≤ i < 5 →
  example !! txt "citing_prompt" = Some q →
  example !! (txt "holding_" ++ txt (pretty i)) = Some PyNone →
  ∃ ne hn,
    shape example = Ok ne ∧
    relevant_passages ne = [PyNone] ∧
    docs ne !! Z.to_nat i = Some PyNone ∧
    row_record ne =
      JDict [(txt "query", to_json q); (txt "relevant_passages", JList [JNull]);
             (txt "hard_negatives", JList hn)].
Proof.
  intros Hl Hi Hq Hrp. do 2 eexists.
  split; [by eapply shape_in_range|]. cbn [relevant_passages docs].
  split_and!; [done| |done].
  rewrite list_lookup_fmap, (all_labels_lookup i Hi).
  cbn [fmap option_fmap option_map]. unfold get. by rewrite Hrp.
Qed.

Lemma shape_null_passage_witness :
  ∃ ne hn,
    shape null_passage_example = Ok ne ∧
    relevant_passages ne = [PyNone] ∧
    docs ne !! Z.to_nat 2 = Some PyNone ∧
    row_record ne =
      JDict [(txt "query", to_json (PyStr (txt "See United States v. Newman (<HOLDING>)")));
             (txt "relevant_passages", JList [JNull]);
             (txt "hard_negatives", JList hn)].
Proof.
  apply (shape_null_passage null_passage_example 2).
  - right; reflexivity.
  - lia.
  - reflexivity.
  - reflexivity.
Defined.

Lemma elem_of_delete_lookup {A} (l : list A) (i : nat) (x : A) :
  x ∈ delete i l ↔ ∃ j, j ≠ i ∧ l !! j = Some x.
Proof.
  rewrite list_elem_of_lookup. setoid_rewrite list_lookup_delete. split.
  - intros [j Hj]. case_decide; eexists; (split; [|exact Hj]); lia.
  - intros (j & Hji & Hj). destruct (decide (j < i)%nat).
    + exists j. by rewrite decide_True.
    + exists (pred j). rewrite decide_False by lia.
      by replace (S (pred j)) with j by lia.
Qed.

(** X18. The hard negatives are chosen by field, not by text: under the
    conditions of a well-formed record, a text is a hard negative
    exactly when it is the candidate of a field other than the selected
    one.  So the relevant passage is kept out of the hard negatives when
    the five candidates differ, and is among them when another candidate
    has the same text. *)
Theorem hard_negatives_by_field (example : dict) (q : pyval)
    (cands : list pyval) (i : Z) (ne : NormalizedExample) :
  example !! txt "citing_prompt" = Some q →
  label_index example i → 0 ≤ i < 5 →
  Forall2 (λ key c, example !! key = Some c) all_labels cands →
  shape example = Ok ne →
  (∀ c, c ∈ hard_negatives ne ↔
        ∃ j, j ≠ Z.to_nat i ∧ cands !! j = Some c) ∧
  (NoDup cands → ∀ rp, rp ∈ relevant_passages ne → rp ∉ hard_negatives ne).
Proof.
  intros Hq Hl Hi Hc Hne.
  destruct (Forall2_lookup_l _ _ _ _ _ Hc (all_labels_lookup i Hi))
    as (c & Hci & Hrp).
  rewrite (shape_in_range example i q c Hl Hi Hq Hrp) in Hne.
  apply (inj Ok) in Hne as <-. cbn [relevant_passages hard_negatives].
  rewrite (get_candidates _ _ _ Hc). split.
  - intros x. apply elem_of_delete_lookup.
  - intros Hnd rp ->%list_elem_of_singleton (j & Hji & Hj)%elem_of_delete_lookup.
    apply Hji. by eapply NoDup_lookup.
Qed.

Lemma hard_negatives_by_field_witness :
  Forall (λ rp, rp ∉ hard_negatives sample_normalized)
    (relevant_passages sample_normalized).
Proof.
  apply Forall_forall.
  apply (hard_negatives_by_field sample_example
           (PyStr (txt "See United States v. Newman (<HOLDING>)"))
           sample_candidates 2 sample_normalized).
  - reflexivity.
  - right; reflexivity.
  - lia.
  - repeat constructor.
  - by vm_compute.
  - apply (bool_decide_unpack _). by vm_compute.
Defined.

(** ** Loader *)

Lemma shape_loop_spec (examples : list dict) (acc d' : list NormalizedExample) :
  shape_loop examples acc = Ok d' ↔
  ∃ d, d' = acc ++ d ∧ Forall2 (λ example ne, shape example = Ok ne) examples d.
Proof.
  revert acc. induction examples as [|example examples IH]; intros acc.
  - cbn [shape_loop]. split.
    + intros <-%(inj Ok). exists []. by rewrite app_nil_r.
    + intros (d & -> & ->%Forall2_nil_inv_l). by rewrite app_nil_r.
  - cbn [shape_loop]. destruct (shape example) as [ne|e] eqn:Hne;
      cbn [mbind result_bind].
    + rewrite IH. split.
      * intros (d & -> & Hd). exists (ne :: d).
        split; [by rewrite <-app_assoc|]. by constructor.
      * intros (d & -> & Hd).
        apply Forall2_cons_inv_l in Hd as (ne' & d1 & Hne' & Hd & ->).
        rewrite Hne in Hne'. apply (inj Ok) in Hne' as <-.
        exists d1. split; [by rewrite <-app_assoc|done].
    + split; [done|]. intros (d & _ & Hd).
      apply Forall2_cons_inv_l in Hd as (ne' & d1 & Hne' & _).
      by rewrite Hne in Hne'.
Qed.

(** X5. The loader is all or nothing and keeps the order: it gives a
    list exactly when every one of the first 420 records of the stream
    is shaped, and the list then holds their normalized examples one for
    one.  Records after the 420th are never looked at. *)
Theorem load_spec (iterable_dataset : list dict) :
  (∀ d, load iterable_dataset = Ok d ↔
        Forall2 (λ example ne, shape example = Ok ne)
          (take num_examples iterable_dataset) d) ∧
  (∀ more, (num_examples ≤ length iterable_dataset)%nat →
           load (iterable_dataset ++ more) = load iterable_dataset).
Proof.
  split.
  - intros d. unfold load. rewrite shape_loop_spec. split.
    + by intros (d' & -> & Hd).
    + intros Hd. by exists d.
  - intros more Hlen. unfold load. by rewrite take_app_le.
Qed.

Lemma load_spec_witness :
  load (replicate 420 sample_example ++ [bad_label_example])
  = load (replicate 420 sample_example).
Proof.
  apply (load_spec (replicate 420 sample_example)).
  rewrite length_replicate. unfold num_examples. lia.
Defined.





(** ** Splitter on frames of any size *)

Lemma py_slice_between_any {A} (l : list A) (a b : Z) :
  0 ≤ a ≤ b →
  py_slice l (Some a) (Some b) = take (Z.to_nat (b - a)) (drop (Z.to_nat a) l).
Proof.
  intros Hab. unfold py_slice, slice_bound. cbn [from_option].
  rewrite !(proj2 (Z.ltb_ge _ 0)) by lia.
  destruct (Z.min_spec a (Z.of_nat (length l))) as [[Ha ->]|[Ha ->]];
    destruct (Z.min_spec b (Z.of_nat (length l))) as [[Hb ->]|[Hb ->]];
    try lia.
  - done.
  - rewrite !take_ge; [done|rewrite length_drop; lia..].
  - rewrite !drop_ge by lia. by rewrite !take_nil.
Qed.

Lemma split_slices_any (df : DataFrame) (train valid test : Z) :
  0 ≤ train → 0 ≤ valid →
  train_valid_test_split df train valid test =
    {| df_train := take (Z.to_nat train) df;
       df_valid := take (Z.to_nat valid) (drop (Z.to_nat train) df);
       df_test := drop (Z.to_nat train + Z.to_nat valid) df |}.
Proof.
  intros Ht Hv. unfold train_valid_test_split.
  rewrite py_slice_upto, py_slice_between_any, py_slice_from by lia.
  do 3 f_equal; lia.
Qed.

(** X7. For any non-negative train and validation counts and a frame of
    any size, also one with fewer rows than the counts ask for, the
    three slices concatenate to the whole frame: no row is lost and none
    is in two slices.  The training slice has the first [train] rows or
    all of them, the validation slice up to [valid] of the rows that
    follow, and the test slice whatever is left, which is nothing when
    the frame has at most train+valid rows. *)
Theorem split_any_size (d : list NormalizedExample) (train valid test : Z) :
  0 ≤ train → 0 ≤ valid →
  let s := train_valid_test_split (pd_DataFrame d) train valid test in
  let t := Z.to_nat train in
  let v := Z.to_nat valid in
  df_train s ++ df_valid s ++ df_test s = pd_DataFrame d ∧
  NoDup (row_labels (df_train s) ++ row_labels (df_valid s) ++ row_labels (df_test s)) ∧
  length (df_train s) = (t `min` length d)%nat ∧
  length (df_valid s) = (v `min` (length d - t))%nat ∧
  length (df_test s) = (length d - (t + v))%nat.
Proof.
  intros Ht Hv s t v. subst s. rewrite split_slices_any by done.
  cbn [df_train df_valid df_test]. fold t v.
  split_and!.
  - apply split_concat.
  - unfold row_labels. rewrite <-!fmap_app, split_concat.
    fold (row_labels (pd_DataFrame d)). rewrite row_labels_DataFrame.
    apply NoDup_seq.
  - by rewrite length_take, length_DataFrame.
  - by rewrite length_take, length_drop, length_DataFrame.
  - by rewrite length_drop, length_DataFrame.
Qed.

Lemma split_any_size_witness :
  let s := train_valid_test_split (pd_DataFrame three_rows) train_num valid_num test_num in
  length (df_train s) = 3%nat ∧ length (df_valid s) = 0%nat ∧ length (df_test s) = 0%nat.
Proof.
  destruct (split_any_size three_rows train_num valid_num test_num)
    as (_ & _ & H1 & H2 & H3).
  - unfold train_num. lia.
  - unfold valid_num. lia.
  - split; [exact H1|]. split; [exact H2|exact H3].
Defined.




(** ** Evaluator: failures, what is sent, and the two passes *)

Section EvaluatorMore.
Context {world : Type}.
Variable co_rerank : RerankRequest → world → result RerankResponse * world.

Lemma df_apply_app model (df1 df2 : DataFrame) σ :
  df_apply (λ item, get_prediction co_rerank item model) (df1 ++ df2) σ =
    match df_apply (λ item, get_prediction co_rerank item model) df1 σ with
    | (Ok p1, σ1) =>
        match df_apply (λ item, get_prediction co_rerank item model) df2 σ1 with
        | (Ok p2, σ2) => (Ok (p1 ++ p2), σ2)
        | (Raise e, σ2) => (Raise e, σ2)
        end
    | (Raise e, σ1) => (Raise e, σ1)
    end.
Proof.
  revert σ. induction df1 as [|[i row] df1 IH]; intros σ.
  - cbn [app df_apply]. unfold client_ret. cbn beta iota.
    by destruct (df_apply _ df2 σ) as [[p2|e] σ2].
  - cbn [app]. rewrite !df_apply_cons.
    destruct (get_prediction co_rerank row model σ) as [[b|e] σ1]; [|done].
    rewrite IH.
    destruct (df_apply _ df1 σ1) as [[p1|e] σ2]; [|done].
    by destruct (df_apply _ df2 σ2) as [[p2|e] σ3].
Qed.

(** X9. An evaluation stops at the first row whose request fails or is
    answered without a result: it raises the error of the endpoint, or
    [IndexError] for an empty answer, after one request for each row up
    to that one; the rows after it are not sent and no accuracy is
    computed. *)
Theorem evaluate_stops_at_failure (model : list N) (good rest : DataFrame)
    (i : nat) (row : NormalizedExample) (w w1 w2 : world)
    (log log1 : list RerankRequest) (preds : Series Z)
    (r : result RerankResponse) :
  df_apply (λ item, get_prediction co_rerank item model) good (w, log)
    = (Ok preds, (w1, log1)) →
  co_rerank (request_of model row) w1 = (r, w2) →
  (∀ resp, r = Ok resp → results resp = []) →
  evaluate co_rerank model (good ++ (i, row) :: rest) (w, log)
  = (Raise (match r with Raise e => e | Ok _ => IndexError end),
     (w2, log ++ requests model good ++ [request_of model row])).
Proof.
  intros Hgood Hcall Hres. unfold evaluate, client_bind at 1.
  rewrite df_apply_app, Hgood, df_apply_cons, get_prediction_run, Hcall.
  cbn [fst snd].
  apply df_apply_ok in Hgood as (Hlog & _ & _). cbn [snd] in Hlog. subst log1.
  rewrite <-app_assoc. destruct r as [resp|e]; [|done].
  by rewrite (Hres resp eq_refl).
Qed.

(** X10. The requests and the predictions depend on the queries and the
    documents of the rows only: two frames that agree on them, whatever
    their labels and passage lists, are sent and answered alike.  The
    ground truth is never part of a request. *)
Theorem predictions_ignore_labels (model : list N) (df df' : DataFrame) σ :
  Forall2 (λ r r', fst r = fst r' ∧ query (snd r) = query (snd r') ∧
                   docs (snd r) = docs (snd r')) df df' →
  df_apply (λ item, get_prediction co_rerank item model) df σ
  = df_apply (λ item, get_prediction co_rerank item model) df' σ.
Proof.
  intros Hdf. revert σ.
  induction Hdf as [|[i row] [i' row'] df df' (Hi & Hq & Hd) _ IH]; intros [w log];
    [done|].
  cbn [fst snd] in Hi, Hq, Hd. subst i'.
  rewrite !df_apply_cons, !get_prediction_run.
  assert (request_of model row = request_of model row') as ->.
  { unfold request_of. by rewrite Hq, Hd. }
  destruct (co_rerank (request_of model row') w) as [[resp|e] w1]; [|done].
  cbn [fst snd]. destruct (results resp) as [|top tl]; [done|].
  by rewrite IH.
Qed.

Lemma evaluate_Ok_inv model (df_test : DataFrame) σ preds acc σ' :
  evaluate co_rerank model df_test σ = (Ok (preds, acc), σ') →
  df_apply (λ item, get_prediction co_rerank item model) df_test σ = (Ok preds, σ') ∧
  accuracy preds df_test = Ok acc.
Proof.
  unfold evaluate, client_bind, client_lift, client_ret.
  destruct (df_apply _ df_test σ) as [[ps|e] σ1]; [|done].
  destruct (accuracy ps df_test) as [a|e] eqn:Hacc; [|done].
  intros [= <- <- <-]. by rewrite Hacc.
Qed.

Lemma evaluate_answering model (df_test : DataFrame) σ :
  df_test ≠ [] → answering co_rerank →
  ∃ preds acc σ', evaluate co_rerank model df_test σ = (Ok (preds, acc), σ').
Proof.
  intros Hne Hans. unfold evaluate, client_bind, client_lift, client_ret.
  destruct (df_apply_answering co_rerank model df_test σ Hans) as (ps & σ1 & ->).
  rewrite accuracy_value by done. by do 3 eexists.
Qed.

Lemma accuracy_unit_interval (preds : Series Z) (df : DataFrame) (acc : Q) :
  accuracy preds df = Ok acc → (0 <= acc)%Q ∧ (acc <= 1)%Q.
Proof.
  intros Hacc. destruct df as [|r df]; [done|].
  rewrite accuracy_value in Hacc by done. apply (inj Ok) in Hacc as <-.
  pose proof (matches_le preds (r :: df)) as Hle.
  assert (Z.pos (Pos.of_nat (length (r :: df))) = Z.of_nat (length (r :: df))) as Hden.
  { rewrite <-positive_nat_Z, Nat2Pos.id; [done|]. cbn [length]. lia. }
  unfold Qle. cbn [Qnum Qden]. rewrite Hden. lia.
Qed.

(** X11. The two accuracy cells together: when both passes complete,
    the endpoint has received one request per test row with the default
    model and then one per test row with the fine-tuned model, with the
    same queries and documents in the same order, and both accuracies
    are between 0 and 1.  On a test frame that is not empty, with an
    endpoint that answers every request, both passes complete. *)
Theorem compare_models_passes (df_test : DataFrame) (w : world)
    (log : list RerankRequest) :
  (∀ a1 a2 σ',
     compare_models co_rerank df_test (w, log) = (Ok (a1, a2), σ') →
     σ'.2 = log ++ requests baseline_model df_test
                ++ requests finetuned_model df_test ∧
     (λ req, (req_query req, req_documents req, req_top_n req))
       <$> requests baseline_model df_test
     = (λ req, (req_query req, req_documents req, req_top_n req))
       <$> requests finetuned_model df_test ∧
     (0 <= a1)%Q ∧ (a1 <= 1)%Q ∧ (0 <= a2)%Q ∧ (a2 <= 1)%Q) ∧
  (df_test ≠ [] → answering co_rerank →
   ∃ a1 a2 σ', compare_models co_rerank df_test (w, log) = (Ok (a1, a2), σ')).
Proof.
  split.
  - intros a1 a2 σ'. unfold compare_models, client_bind at 1.
    destruct (evaluate co_rerank baseline_model df_test (w, log))
      as [[[p1 b1]|e] [w1 log1]] eqn:H1; [|done].
    unfold client_bind, client_ret.
    destruct (evaluate co_rerank finetuned_model df_test (w1, log1))
      as [[[p2 b2]|e] σ2] eqn:H2; [|done].
    cbn [snd]. intros [= <- <- <-].
    apply evaluate_Ok_inv in H1 as [(Hlog1 & _)%df_apply_ok [? ?]%accuracy_unit_interval].
    apply evaluate_Ok_inv in H2 as [(Hlog2 & _)%df_apply_ok [? ?]%accuracy_unit_interval].
    cbn [snd] in Hlog1. subst log1.
    split_and!; try done.
    + by rewrite Hlog2, <-app_assoc.
    + unfold requests. by rewrite <-!list_fmap_compose.
  - intros Hne Hans. unfold compare_models, client_bind at 1.
    destruct (evaluate_answering baseline_model df_test (w, log) Hne Hans)
      as (p1 & b1 & σ1 & ->).
    unfold client_bind, client_ret.
    destruct (evaluate_answering finetuned_model df_test σ1 Hne Hans)
      as (p2 & b2 & σ2 & ->).
    by do 3 eexists.
Qed.
End EvaluatorMore.

Lemma evaluate_stops_at_failure_witness :
  evaluate tired_rerank baseline_model sample_frame (0%nat, [])
  = (Raise IndexError, (2%nat, requests baseline_model sample_frame)).
Proof.
  apply (evaluate_stops_at_failure tired_rerank baseline_model
           [(0%nat, sample_normalized)] [] 1 multiline_row 0%nat 1%nat 2%nat
           [] [request_of baseline_model sample_normalized] [(0%nat, 2)]
           (Ok {| results := [] |})).
  - reflexivity.
  - reflexivity.
  - by intros resp [= <-].
Defined.

Lemma predictions_ignore_labels_witness :
  df_apply (λ item, get_prediction sample_rerank item baseline_model)
    sample_frame (0%nat, [])
  = df_apply (λ item, get_prediction sample_rerank item baseline_model)
    relabelled_frame (0%nat, []).
Proof.
  apply (predictions_ignore_labels sample_rerank baseline_model
           sample_frame relabelled_frame (0%nat, [])).
  rewrite sample_frame_rows. repeat constructor.
Defined.

Lemma compare_models_passes_witness :
  ∃ a1 a2 σ',
    compare_models sample_rerank sample_frame (0%nat, []) = (Ok (a1, a2), σ').
Proof.
  destruct (compare_models_passes sample_rerank sample_frame 0%nat []) as [_ Hrun].
  apply Hrun.
  - rewrite sample_frame_rows. discriminate.
  - exact sample_rerank_answering.
Defined.

(** ** Serializer: other paths, later runs, and the two files *)

Lemma create_jsonl_existing (fs : filesystem) (file_name old : list N)
    (df : DataFrame) :
  fs !! (file_name ++ txt ".jsonl") = Some (File old) →
  create_jsonl_from_list fs file_name df = Ok fs.
Proof. intros Hold. unfold create_jsonl_from_list, isfile. by rewrite Hold. Qed.

Lemma create_jsonl_directory (fs : filesystem) (file_name : list N)
    (df : DataFrame) :
  fs !! (file_name ++ txt ".jsonl") = Some Directory →
  create_jsonl_from_list fs file_name df = Raise IsADirectoryError.
Proof. intros Hdir. unfold create_jsonl_from_list, isfile. by rewrite Hdir. Qed.



(** X13. A run with an empty slice on a fresh destination creates an
    empty file; the file then counts as existing, so a later run with
    rows writes none of them. *)
Theorem empty_slice_blocks (fs : filesystem) (file_name : list N) (df : DataFrame) :
  fs !! (file_name ++ txt ".jsonl") = None →
  ∃ fs1,
    create_jsonl_from_list fs file_name [] = Ok fs1 ∧
    fs1 !! (file_name ++ txt ".jsonl") = Some (File []) ∧
    create_jsonl_from_list fs1 file_name df = Ok fs1.
Proof.
  intros Hnone. eexists. split; [by apply create_jsonl_fresh|].
  cbn [values fmap list_fmap concat]. split; [by rewrite lookup_insert_eq|].
  eapply create_jsonl_existing. by rewrite lookup_insert_eq.
Qed.

Lemma empty_slice_blocks_witness :
  ∃ fs1,
    create_jsonl_from_list ∅ (txt "casehold_valid") [] = Ok fs1 ∧
    fs1 !! (txt "casehold_valid" ++ txt ".jsonl") = Some (File []) ∧
    create_jsonl_from_list fs1 (txt "casehold_valid") sample_frame = Ok fs1.
Proof.
  apply (empty_slice_blocks ∅ (txt "casehold_valid") sample_frame). reflexivity.
Defined.

Global Instance to_json_inj : Inj (=) (=) to_json.
Proof. intros [ |z|s] [ |z'|s'] H; by inversion H. Qed.

(** X14. The line written for a row is decided by its query, relevant
    passages and hard negatives, and decides them: rows of texts that
    differ in one of the three are written as different lines, and the
    label and the documents of a row leave no trace in its line. *)
Theorem record_line_inj (row row' : NormalizedExample) :
  text_row row → text_row row' →
  record_line row = record_line row' ↔
  query row = query row' ∧
  relevant_passages row = relevant_passages row' ∧
  hard_negatives row = hard_negatives row'.
Proof.
  intros Hrow Hrow'. split.
  - intros Hline.
    pose proof (json_loads_record_line row Hrow) as H1.
    pose proof (json_loads_record_line row' Hrow') as H2.
    rewrite Hline, H2 in H1. apply (inj Some) in H1.
    unfold row_record, create_rerank_ft_data in H1.
    injection H1 as Hq Hrp Hhn.
    split_and!; [by apply (inj to_json)|by apply (inj (fmap to_json))..].
  - intros (Hq & Hrp & Hhn).
    unfold record_line, row_record. by rewrite Hq, Hrp, Hhn.
Qed.

Lemma record_line_inj_witness :
  record_line sample_normalized ≠ record_line multiline_row.
Proof.
  intros Hline.
  apply (record_line_inj sample_normalized multiline_row) in Hline as (Hq & _).
  - discriminate Hq.
  - apply text_rowb_text_row. by vm_compute.
  - apply text_rowb_text_row. by vm_compute.
Defined.

Lemma train_valid_paths_differ :
  txt "casehold_train" ++ txt ".jsonl" ≠ txt "casehold_valid" ++ txt ".jsonl".
Proof. discriminate. Qed.

Lemma write_finetuning_files_split (fs : filesystem)
    (d : list NormalizedExample) (train valid test : Z) :
  0 ≤ train → 0 ≤ valid →
  fs !! (txt "casehold_train" ++ txt ".jsonl") = None →
  fs !! (txt "casehold_valid" ++ txt ".jsonl") = None →
  write_finetuning_files fs
    (train_valid_test_split (pd_DataFrame d) train valid test)
  = Ok (<[txt "casehold_valid" ++ txt ".jsonl" :=
            File (concat (record_line <$> take (Z.to_nat valid) (drop (Z.to_nat train) d)))]>
          (<[txt "casehold_train" ++ txt ".jsonl" :=
               File (concat (record_line <$> take (Z.to_nat train) d))]> fs)).
Proof.
  intros Ht Hv Htrain Hvalid.
  rewrite split_slices_any by done. unfold write_finetuning_files.
  cbn [df_train df_valid].
  rewrite create_jsonl_fresh by done. cbn [mbind result_bind].
  rewrite create_jsonl_fresh
    by (rewrite lookup_insert_ne; [done|apply train_valid_paths_differ]).
  unfold values. rewrite !fmap_take, !fmap_drop.
  fold (values (pd_DataFrame d)). by rewrite values_DataFrame.
Qed.

(** X15. On a directory that has neither file, the two serializer calls
    of the notebook write the training rows to the training file and
    the validation rows to the validation file.  With the slices of the
    splitter the two files together hold the lines of the first
    train+valid examples, in order: no test row is written. *)
Theorem write_finetuning_files_fresh (fs : filesystem)
    (d : list NormalizedExample) (train valid test : Z) :
  0 ≤ train → 0 ≤ valid →
  fs !! (txt "casehold_train" ++ txt ".jsonl") = None →
  fs !! (txt "casehold_valid" ++ txt ".jsonl") = None →
  ∃ ctrain cvalid,
    write_finetuning_files fs
      (train_valid_test_split (pd_DataFrame d) train valid test)
    = Ok (<[txt "casehold_valid" ++ txt ".jsonl" := File cvalid]>
            (<[txt "casehold_train" ++ txt ".jsonl" := File ctrain]> fs)) ∧
    ctrain = concat (record_line <$> take (Z.to_nat train) d) ∧
    cvalid = concat (record_line <$> take (Z.to_nat valid) (drop (Z.to_nat train) d)) ∧
    ctrain ++ cvalid
      = concat (record_line <$> take (Z.to_nat train + Z.to_nat valid) d).
Proof.
  intros Ht Hv Htrain Hvalid. do 2 eexists.
  split; [by apply write_finetuning_files_split|].
  split_and!; [done..|].
  by rewrite <-concat_app, <-fmap_app, take_take_drop.
Qed.

Lemma write_finetuning_files_fresh_witness :
  ∃ ctrain cvalid,
    write_finetuning_files ∅
      (train_valid_test_split (pd_DataFrame three_rows) 1 1 1)
    = Ok (<[txt "casehold_valid" ++ txt ".jsonl" := File cvalid]>
            (<[txt "casehold_train" ++ txt ".jsonl" := File ctrain]> ∅)) ∧
    ctrain = concat (record_line <$> take 1 three_rows) ∧
    cvalid = concat (record_line <$> take 1 (drop 1 three_rows)).
Proof.
  destruct (write_finetuning_files_fresh ∅ three_rows 1 1 1)
    as (ctrain & cvalid & Hw & Ht & Hv & _).
  - lia.
  - lia.
  - reflexivity.
  - reflexivity.
  - exists ctrain, cvalid. split; [exact Hw|]. split; [exact Ht|exact Hv].
Defined.

(** X16. Each of the two files is decided on its own.  When the training
    file is there already and the validation file is not, only the
    validation file is written, beside the training file of the earlier
    run; when a directory has the name of the training file, the first
    call fails and the validation file is not written. *)
Theorem write_finetuning_files_mixed :
  (∀ (fs : filesystem) (s : Split) (old : list N),
     fs !! (txt "casehold_train" ++ txt ".jsonl") = Some (File old) →
     fs !! (txt "casehold_valid" ++ txt ".jsonl") = None →
     ∃ fs',
       write_finetuning_files fs s = Ok fs' ∧
       fs' !! (txt "casehold_train" ++ txt ".jsonl") = Some (File old) ∧
       fs' !! (txt "casehold_valid" ++ txt ".jsonl")
         = Some (File (concat (record_line <$> values (df_valid s))))) ∧
  (∀ (fs : filesystem) (s : Split),
     fs !! (txt "casehold_train" ++ txt ".jsonl") = Some Directory →
     write_finetuning_files fs s = Raise IsADirectoryError).
Proof.
  split.
  - intros fs s old Htrain Hvalid. unfold write_finetuning_files.
    rewrite (create_jsonl_existing _ _ old) by done.
    cbn [mbind result_bind]. rewrite create_jsonl_fresh by done.
    eexists. split; [done|]. split.
    + rewrite lookup_insert_ne; [done|].
      intros Heq. by apply train_valid_paths_differ.
    + by rewrite lookup_insert_eq.
  - intros fs s Hdir. unfold write_finetuning_files.
    by rewrite create_jsonl_directory.
Qed.

Lemma write_finetuning_files_mixed_witness :
  ∃ fs',
    write_finetuning_files old_directory
      (train_valid_test_split sample_frame 1 1 0) = Ok fs' ∧
    fs' !! (txt "casehold_train" ++ txt ".jsonl") = Some (File (txt "{}")).
Proof.
  destruct write_finetuning_files_mixed as [Hmixed _].
  destruct (Hmixed old_directory (train_valid_test_split sample_frame 1 1 0) (txt "{}"))
    as (fs' & Hw & Ht & _).
  - reflexivity.
  - reflexivity.
  - exists fs'. split; [exact Hw|exact Ht].
Defined.




(** ** JSON texts, in general *)


